(** * The ReAct agent control loops of [lib/agents.py],
      [lib/custom_react_agent.py] and [lib/react_agent.py]

    A shallow embedding of the three agent variants: their output parsers
    (Python [re] patterns written as backtracking matchers), the loop guard of
    the custom variant, and the three [stream] generators, driven to
    completion against an arbitrary language model and tool set. *)

From Stdlib Require Import List String Ascii Bool Arith ZArith Lia.
From Stdlib Require Import DecimalString.
Import ListNotations.

(** ** Python text *)

(** A Python [str] is modelled as the list of its characters.  The character
    classes below are those of Python on the code points 0..127 only: on a
    text with other characters Python's [\s], [\w], [str.strip] and
    [str.lower] take more than the classes here do (the no-break space and
    the next-line control are white space, accented letters are word
    characters).  Every property below that strips, lowers or matches a text
    it quantifies over therefore assumes [ascii_text] of that text. *)
Definition str := list ascii.

Definition S_ (s : string) : str := list_ascii_of_string s.
Notation "$ s" := (S_ s) (at level 1, s at level 0, format "$ s").

Definition str_eqb (a b : str) : bool :=
  if list_eq_dec ascii_dec a b then true else false.

(** [str.isspace] / the class [\s]: TAB, LF, VT, FF, CR, FS, GS, RS, US and
    the space. *)
Definition is_space (c : ascii) : bool :=
  let n := nat_of_ascii c in
  ((9 <=? n) && (n <=? 13)) || ((28 <=? n) && (n <=? 32)).

Definition is_digit (c : ascii) : bool :=
  let n := nat_of_ascii c in (48 <=? n) && (n <=? 57).

Definition is_upper (c : ascii) : bool :=
  let n := nat_of_ascii c in (65 <=? n) && (n <=? 90).

Definition is_lower (c : ascii) : bool :=
  let n := nat_of_ascii c in (97 <=? n) && (n <=? 122).

(** The class [\w]. *)
Definition is_word (c : ascii) : bool :=
  is_upper c || is_lower c || is_digit c || Ascii.eqb c "_".

(** A text of ASCII characters only (code points below 128). *)
Definition ascii_text (s : str) : bool :=
  forallb (fun c => nat_of_ascii c <? 128) s.

(** The class [[a-zA-Z0-9_-]]. *)
Definition is_name_char (c : ascii) : bool :=
  is_word c || Ascii.eqb c "-".

Definition lower_char (c : ascii) : ascii :=
  if is_upper c then ascii_of_nat (nat_of_ascii c + 32) else c.

(** [str.lower]. *)
Definition lower (s : str) : str := map lower_char s.

Fixpoint lstrip (s : str) : str :=
  match s with
  | c :: t => if is_space c then lstrip t else s
  | [] => []
  end.

Definition rstrip (s : str) : str := rev (lstrip (rev s)).

(** [str.strip]. *)
Definition strip (s : str) : str := rstrip (lstrip s).

(** [s.startswith(p)], returning what follows the prefix. *)
Fixpoint drop_prefix (p s : str) : option str :=
  match p, s with
  | [], _ => Some s
  | a :: p', b :: s' => if Ascii.eqb a b then drop_prefix p' s' else None
  | _ :: _, [] => None
  end.

(** The same, ignoring case ([re.IGNORECASE] on a literal). *)
Fixpoint drop_prefix_ci (p s : str) : option str :=
  match p, s with
  | [], _ => Some s
  | a :: p', b :: s' =>
      if Ascii.eqb (lower_char a) (lower_char b) then drop_prefix_ci p' s' else None
  | _ :: _, [] => None
  end.

(** [s.find(p)]: the index of the first occurrence. *)
Fixpoint find (p s : str) : option nat :=
  match drop_prefix p s with
  | Some _ => Some 0
  | None => match s with
            | [] => None
            | _ :: t => option_map S (find p t)
            end
  end.

(** [p in s]. *)
Definition contains (p s : str) : bool :=
  match find p s with Some _ => true | None => false end.

(** Decimal rendering of an [int], as an f-string does. *)
Definition str_of_Z (z : Z) : str := S_ (NilZero.string_of_int (Z.to_int z)).

(** ** Exceptions *)

Record Exn := mkExn { exn_type : str; exn_msg : str }.

Inductive Exc (A : Type) : Type :=
| Ok (a : A)
| Raise (e : Exn).
Arguments Ok {A} a.
Arguments Raise {A} e.

Definition bind {A B} (m : Exc A) (f : A -> Exc B) : Exc B :=
  match m with
  | Ok a => f a
  | Raise e => Raise e
  end.

Notation "x <- m ;; k" := (bind m (fun x => k))
  (at level 61, m at next level, right associativity).

(** ** Regular expressions

    A pattern is written as a backtracking matcher in continuation-passing
    style, with the priorities of Python's [re]: a greedy repetition tries the
    longest run first and gives characters back one at a time, a lazy one
    tries the shortest first.  All patterns of the source are compiled with
    [re.DOTALL], so [.] is any character. *)

(** What a match records: where it starts, the text it covers (group 0) and
    the capture groups ([None] for a group that took no part). *)
Record Match := mkMatch {
  m_start : nat;
  m_group0 : str;
  m_groups : list (option str)
}.

Section Matchers.
Context {A : Type}.

(** The continuation receives the text consumed by the construct and the
    remaining input. *)
Definition cont := str -> str -> option A.

(** [p*] (greedy), [acc] being the run consumed so far. *)
Fixpoint greedy (p : ascii -> bool) (k : cont) (acc s : str) : option A :=
  match s with
  | c :: t =>
      if p c then
        match greedy p k (acc ++ [c]) t with
        | Some a => Some a
        | None => k acc s
        end
      else k acc s
  | [] => k acc s
  end.

(** [p+] (greedy). *)
Definition greedy1 (p : ascii -> bool) (k : cont) (s : str) : option A :=
  match s with
  | c :: t => if p c then greedy p k [c] t else None
  | [] => None
  end.

(** [.*?] (lazy, DOTALL). *)
Fixpoint lazy_any (k : cont) (acc s : str) : option A :=
  match k acc s with
  | Some a => Some a
  | None => match s with
            | [] => None
            | c :: t => lazy_any k (acc ++ [c]) t
            end
  end.

(** [.*] (greedy, DOTALL). *)
Definition greedy_any (k : cont) (s : str) : option A :=
  greedy (fun _ => true) k [] s.

(** A literal. *)
Definition lit (p : str) (k : str -> option A) (s : str) : option A :=
  match drop_prefix p s with
  | Some r => k r
  | None => None
  end.

(** A literal under [re.IGNORECASE]. *)
Definition lit_ci (p : str) (k : str -> option A) (s : str) : option A :=
  match drop_prefix_ci p s with
  | Some r => k r
  | None => None
  end.

(** [$] without [re.MULTILINE]: the end of the text, or just before a
    newline that ends it. *)
Definition dollar (k : str -> option A) (s : str) : option A :=
  match s with
  | [] => k s
  | [c] => if Ascii.eqb c "010" then k s else None
  | _ => None
  end.
End Matchers.

(** A pattern anchored at the head of its input yields the capture groups and
    the input left after the match. *)
Definition anchored := str -> option (list (option str) * str).

Definition matched_text (s rest : str) : str :=
  firstn (List.length s - List.length rest) s.

(** [pattern.search(text)]: the match at the leftmost position that has one;
    [pos] counts the characters already skipped. *)
Fixpoint search_from (re : anchored) (pos : nat) (s : str) : option Match :=
  match re s with
  | Some (gs, rest) => Some (mkMatch pos (matched_text s rest) gs)
  | None => match s with
            | [] => None
            | _ :: t => search_from re (S pos) t
            end
  end.

Definition search (re : anchored) (s : str) : option Match := search_from re 0 s.

(** [pattern.findall(text)]: the capture groups of the successive
    non-overlapping matches, left to right.  [skip] is the number of
    characters of the current match still to pass over. *)
Fixpoint findall_from (re : anchored) (skip : nat) (s : str)
  : list (list (option str)) :=
  match skip with
  | S k => match s with
           | [] => []
           | _ :: t => findall_from re k t
           end
  | O =>
      match re s with
      | Some (gs, rest) =>
          gs :: match s with
                | [] => []
                | _ :: t => findall_from re (List.length s - List.length rest - 1) t
                end
      | None => match s with
                | [] => []
                | _ :: t => findall_from re 0 t
                end
      end
  end.

Definition findall (re : anchored) (s : str) : list (list (option str)) :=
  findall_from re 0 s.

(** [m.group(i)]: [IndexError] when the pattern has no such group. *)
Definition group (m : Match) (i : nat) : Exc (option str) :=
  match i with
  | O => Ok (Some (m_group0 m))
  | S j => match nth_error (m_groups m) j with
           | Some g => Ok g
           | None => Raise (mkExn $"IndexError" $"no such group")
           end
  end.

(** [x.strip()] on the result of [group]: [AttributeError] on [None]. *)
Definition strip_method (x : option str) : Exc str :=
  match x with
  | Some s => Ok (strip s)
  | None => Raise (mkExn $"AttributeError"
                         $"'NoneType' object has no attribute 'strip'")
  end.

(** [m.group(i).strip()] *)
Definition group_strip (m : Match) (i : nat) : Exc str :=
  g <- group m i ;; strip_method g.

(** [findall] turns a group that took no part into the empty string. *)
Definition group_text (g : option str) : str :=
  match g with Some s => s | None => [] end.

(** Python truthiness of a [str] and of an [Optional[str]]. *)
Definition truthy (s : str) : bool :=
  match s with [] => false | _ => true end.

Definition opt_truthy (o : option str) : bool :=
  match o with Some s => truthy s | None => false end.

(** [collections.deque(maxlen=n).append(x)]: the oldest entries leave once
    the bound is passed. *)
Definition deque_append {A} (maxlen : nat) (d : list A) (x : A) : list A :=
  skipn (List.length (d ++ [x]) - maxlen) (d ++ [x]).

(** The last element of a list ([xs[-1]]). *)
Definition last_opt {A} (xs : list A) : option A :=
  match rev xs with x :: _ => Some x | [] => None end.

(** The keys of [{t.name: t for t in tools}], in insertion order. *)
Fixpoint dict_keys (seen : list str) (tools : list str) : list str :=
  match tools with
  | [] => []
  | n :: rest =>
      if existsb (str_eqb n) seen then dict_keys seen rest
      else n :: dict_keys (n :: seen) rest
  end.

(** [str] of a list of names (names without quotes or escapes). *)
Fixpoint join_quoted (names : list str) : str :=
  match names with
  | [] => []
  | [n] => $"'" ++ n ++ $"'"
  | n :: rest => $"'" ++ n ++ $"', " ++ join_quoted rest
  end.

Definition repr_names (names : list str) : str :=
  $"[" ++ join_quoted names ++ $"]".

(** ** Events and messages *)

(** The ["type"] field of a stream event: one constructor for each of the
    literals [info], [thought], [thought_action], [action_input],
    [observation], [final_answer] and [error] the three agents use. *)
Inductive EventType :=
| Info | Thought | ThoughtAction | ActionInput | Observation
| FinalAnswer | Error.

Record Event := mkEvent { ev_type : EventType; ev_content : str }.

Definition EventType_eqb (a b : EventType) : bool :=
  match a, b with
  | Info, Info | Thought, Thought | ThoughtAction, ThoughtAction
  | ActionInput, ActionInput | Observation, Observation
  | FinalAnswer, FinalAnswer | Error, Error => true
  | _, _ => false
  end.

(** The langchain message classes the agents build. *)
Inductive BaseMessage :=
| SystemMessage (content : str)
| HumanMessage (content : str)
| AIMessage (content : str)
| ToolMessage (content tool_call_id name : str).

Definition msg_content (m : BaseMessage) : str :=
  match m with
  | SystemMessage c | HumanMessage c | AIMessage c | ToolMessage c _ _ => c
  end.

Definition is_ToolMessage (m : BaseMessage) : bool :=
  match m with ToolMessage _ _ _ => true | _ => false end.

(** What driving a [stream] generator to completion shows: the events in the
    order they are yielded, and the context of every call of the model. *)
Record Run := mkRun {
  events : list Event;
  llm_calls : list (list BaseMessage)
}.

(** How a pass through the body of a [stream] loop ends: with the next
    iteration, or with the generator returning. *)
Inductive Flow (St : Type) : Type :=
| Next (st : St)
| Done (st : St).
Arguments Next {St} st.
Arguments Done {St} st.

(** The [for] loop of a [stream] generator, with [n] iterations left, the next
    being number [i].  [body] gives the events one iteration yields and the
    state it leaves, [ctx] the context the iteration sends to the model, and
    [exhausted] is the event yielded after the loop. *)
Fixpoint for_loop {St : Type} (body : Z -> St -> list Event * Flow St)
    (ctx : St -> list BaseMessage) (exhausted : Event)
    (n : nat) (i : Z) (st : St) : Run * St :=
  match n with
  | O => (mkRun [exhausted] [], st)
  | S n' =>
      match body i st with
      | (evs, Done st') => (mkRun evs [ctx st], st')
      | (evs, Next st') =>
          let (r, st'') := for_loop body ctx exhausted n' (i + 1) st' in
          (mkRun (evs ++ events r) (ctx st :: llm_calls r), st'')
      end
  end.

(** A tool: its name, its description and what calling it on an input does. *)
Record BaseTool := mkTool {
  tool_name : str;
  tool_description : str;
  tool_func : str -> Exc str
}.

(** [{t.name: t for t in tools}[name]]: a later tool of the same name
    replaces an earlier one. *)
Fixpoint tools_get (tools : list BaseTool) (name : str) : option BaseTool :=
  match tools with
  | [] => None
  | t :: rest =>
      match tools_get rest name with
      | Some t' => Some t'
      | None => if str_eqb (tool_name t) name then Some t else None
      end
  end.

(** ** [lib/agents.py]: the patterns and parser of [OptimalReActAgent] *)

Module agents.

(** The pattern [Action:\s*(\w+)\s*\[(.*?)\]]. *)
Definition ACTION_REGEX : anchored :=
  lit $"Action:"
    (greedy is_space (fun _ =>
       greedy1 is_word (fun g1 =>
         greedy is_space (fun _ =>
           lit $"["
             (lazy_any (fun g2 =>
                lit $"]" (fun rest => Some ([Some g1; Some g2], rest))) []))
           [])) []).

(** The pattern [Final Answer:\s*] followed by the group [.*]. *)
Definition FINAL_ANSWER_REGEX : anchored :=
  lit $"Final Answer:"
    (greedy is_space (fun _ =>
       greedy_any (fun g1 rest => Some ([Some g1], rest))) []).

(** The pattern [Thought:\s*] followed by the group [.*]. *)
Definition THOUGHT_REGEX : anchored :=
  lit $"Thought:"
    (greedy is_space (fun _ =>
       greedy_any (fun g1 rest => Some ([Some g1], rest))) []).

(** [_parse_agent_output]: (Thought, Action_Name, Action_Input). *)
Definition _parse_agent_output (llm_output : str)
  : Exc (option str * option str * option str) :=
  let thought_match := search THOUGHT_REGEX llm_output in
  let action_match := search ACTION_REGEX llm_output in
  let final_answer_match := search FINAL_ANSWER_REGEX llm_output in
  thought <- match thought_match with
             | Some m => t <- group_strip m 1 ;; Ok (Some t)
             | None => Ok None
             end ;;
  match final_answer_match with
  | Some m =>
      final_answer <- group_strip m 1 ;;
      Ok (thought, Some $"finish", Some final_answer)
  | None =>
      match action_match with
      | Some m =>
          action_name <- group_strip m 1 ;;
          action_input <- group_strip m 2 ;;
          Ok (thought, Some action_name, Some action_input)
      | None => Ok (thought, None, None)
      end
  end.

(** *** [OptimalReActAgent.stream] *)

Definition ToolNotFoundError (msg : str) : Exn := mkExn $"ToolNotFoundError" msg.
Definition ToolExecutionError (msg : str) : Exn := mkExn $"ToolExecutionError" msg.

(** What one pass through the body of the [for] loop ends in, when it does
    not raise: a [return], or the next iteration with the history as the
    pass left it. *)
Inductive Outcome :=
| Return
| Continue (history : list BaseMessage).

Section Agent.
(** [llm.ainvoke(history)]: the content of the reply, or an exception. *)
Variable llm : list BaseMessage -> Exc str.
Variable tools : list BaseTool.
Variable max_iterations : Z.
Variable sparse_reasoning : bool.
Variable system_prompt_text : str.

(** The [finish] tool of the class.  It is built by [@tool] from the method
    [finish(self, final_answer)], so its [func] takes two arguments:
    [tool_func.func(tool_input)], the call [_execute_tool] makes, binds the
    input to [self] and raises [TypeError] (the text is the one of Python
    3.10 and later).  [stream] never makes that call: it handles the action
    [finish] itself. *)
Definition finish : BaseTool :=
  mkTool $"finish"
         $"Tool used to signal the final answer has been reached."
         (fun _ =>
            Raise (mkExn $"TypeError"
                     $"OptimalReActAgent.finish() missing 1 required positional argument: 'final_answer'")).

(** [self.tools_map]: the tools and, last, [finish]. *)
Definition tools_map (name : str) : option BaseTool :=
  tools_get (tools ++ [finish]) name.

(** [_execute_tool] *)
Definition _execute_tool (tool_name tool_input : str) : Exc str :=
  match tools_map tool_name with
  | None =>
      Raise (ToolNotFoundError
               ($"Tool '" ++ tool_name ++ $"' is not recognized."))
  | Some t =>
      match tool_func t tool_input with
      | Ok observation => Ok (strip observation)
      | Raise e =>
          Raise (ToolExecutionError
                   ($"Error executing tool '" ++ tool_name
                    ++ $"' with input '" ++ tool_input ++ $"': "
                    ++ exn_type e ++ $": " ++ exn_msg e))
      end
  end.

Definition dense_error (llm_output : str) : Event :=
  mkEvent Error
    ($"LLM output failed to follow DENSE ReAct format (Thought AND Action required). Output:"
     ++ ["010"%char] ++ llm_output).

Definition sparse_error (llm_output : str) : Event :=
  mkEvent Error
    ($"LLM output failed to parse Thought or Action. Output:"
     ++ ["010"%char] ++ llm_output).

(** Step 9 of the loop body: the check of the reasoning mode. *)
Definition format_check (llm_output : str) (thought : option str)
    (action_executed : bool) (history : list BaseMessage)
  : list Event * Exc Outcome :=
  if negb sparse_reasoning
     && (match thought with None => true | Some _ => false end
         || negb action_executed)
  then ([dense_error llm_output], Ok Return)
  else if sparse_reasoning
          && match thought with None => true | Some _ => false end
          && negb action_executed
  then ([sparse_error llm_output], Ok Return)
  else ([], Ok (Continue history)).

(** The body of the [try] of iteration [i]: the events it yields and how
    it ends (an exception leaves the events yielded before it). *)
Definition iteration (i : Z) (history : list BaseMessage)
  : list Event * Exc Outcome :=
  let e_info :=
    mkEvent Info ($"--- Iteration " ++ str_of_Z i ++ $"/"
                  ++ str_of_Z max_iterations ++ $" ---") in
  match llm history with
  | Raise e => ([e_info], Raise e)
  | Ok llm_output =>
    let history :=
      if sparse_reasoning then history ++ [AIMessage llm_output]
      else history in
    match _parse_agent_output llm_output with
    | Raise e => ([e_info], Raise e)
    | Ok (thought, action_name, action_input) =>
      let e_thought :=
        if opt_truthy thought
        then [mkEvent Thought (group_text thought)] else [] in
      match action_name with
      | Some name =>
        if str_eqb name $"finish" then
          let final_answer :=
            if opt_truthy action_input then group_text action_input
            else llm_output in
          (e_info :: e_thought ++ [mkEvent FinalAnswer final_answer],
           Ok Return)
        else
          match truthy name, action_input with
          | true, Some input =>
            let e_action :=
              mkEvent ActionInput
                ($"Action: " ++ name ++ $"[" ++ input ++ $"]") in
            match _execute_tool name input with
            | Raise e => (e_info :: e_thought ++ [e_action], Raise e)
            | Ok observation =>
              let history :=
                (if negb sparse_reasoning
                 then history ++ [AIMessage llm_output] else history)
                ++ [HumanMessage ($"Observation: " ++ observation)] in
              let (e_fmt, out) :=
                format_check llm_output thought true history in
              (e_info :: e_thought
               ++ [e_action; mkEvent Observation observation]
               ++ e_fmt, out)
            end
          | _, _ =>
            let (e_fmt, out) :=
              format_check llm_output thought false history in
            (e_info :: e_thought ++ e_fmt, out)
          end
      | None =>
        let (e_fmt, out) :=
          format_check llm_output thought false history in
        (e_info :: e_thought ++ e_fmt, out)
      end
    end
  end.

(** The three [except] clauses of the loop body. *)
Definition handler (i : Z) (e : Exn) : Event :=
  if str_eqb (exn_type e) $"ToolNotFoundError" then
    mkEvent Error ($"Parsing Error: " ++ exn_msg e
                   ++ $". The tool suggested does not exist.")
  else if str_eqb (exn_type e) $"ToolExecutionError" then
    mkEvent Error ($"Tool Execution Error: " ++ exn_msg e
                   ++ $". The agent stopped.")
  else
    mkEvent Error ($"An unexpected error occurred during iteration "
                   ++ str_of_Z i ++ $": " ++ exn_type e ++ $": "
                   ++ exn_msg e).

Definition max_iterations_error : Event :=
  mkEvent Error ($"Max iterations (" ++ str_of_Z max_iterations
                 ++ $") reached without finding a Final Answer. Agent stopped.").

(** The body of the [for] loop: the [try] and its [except] clauses. *)
Definition body (i : Z) (history : list BaseMessage)
  : list Event * Flow (list BaseMessage) :=
  match iteration i history with
  | (evs, Raise e) => (evs ++ [handler i e], Done history)
  | (evs, Ok Return) => (evs, Done history)
  | (evs, Ok (Continue history')) => (evs, Next history')
  end.

(** [stream(user_input)], driven to completion. *)
Definition stream (user_input : str) : Run :=
  fst (for_loop body (fun history => history) max_iterations_error
         (Z.to_nat max_iterations) 1
         [SystemMessage system_prompt_text; HumanMessage user_input]).

(** *** [stream_sync], [invoke] and [async_invoke] *)

(** [stream_sync(user_input)], driven to completion.  [loop_running] tells
    whether the caller is inside a running event loop
    ([asyncio.get_running_loop()] succeeds).  If it is not, a new loop is
    made and the events of [stream] are passed on one by one ([stream] lets
    no exception out for the [except Exception] clause to catch).  If it is,
    the first [loop.run_until_complete] raises [RuntimeError] before the
    generator starts, the clause turns it into the only event, and the model
    is never called. *)
Definition stream_sync (loop_running : bool) (user_input : str)
  : list Event :=
  if loop_running then
    [mkEvent Error
       $"Synchronous streaming error: RuntimeError: This event loop is already running"]
  else events (stream user_input).

(** The [for] loop of [invoke] over the events of [stream_sync]: the final
    answers collected in [result], and the [error_message] set by the error
    event the loop breaks at. *)
Fixpoint invoke_loop (evs : list Event) (result : list str)
  : option str * list str :=
  match evs with
  | [] => (None, result)
  | evt :: rest =>
      match ev_type evt with
      | FinalAnswer => invoke_loop rest (result ++ [ev_content evt])
      | Error =>
          (Some ($"[ERROR] Agent failed: " ++ ev_content evt), result)
      | _ => invoke_loop rest result
      end
  end.

(** [invoke(user_input)] *)
Definition invoke (loop_running : bool) (user_input : str) : BaseMessage :=
  match invoke_loop (stream_sync loop_running user_input) [] with
  | (Some error_message, _) => AIMessage error_message
  | (None, result) =>
      match result with
      | _ :: _ => AIMessage (List.concat result)
      | [] =>
          AIMessage $"[ERROR] Agent stopped without providing a Final Answer."
      end
  end.


End Agent.

End agents.

(** ** [lib/custom_react_agent.py]: the [ReActAgent] with loop detection *)

Module custom_react_agent.

(** [Thought: (.*?)\s*Action: (.*?)\s*\[(.*?)\]\s*$], ignoring case. *)
Definition pattern_perfect : anchored :=
  lit_ci $"Thought: "
    (lazy_any (fun g1 =>
       greedy is_space (fun _ =>
         lit_ci $"Action: "
           (lazy_any (fun g2 =>
              greedy is_space (fun _ =>
                lit $"["
                  (lazy_any (fun g3 =>
                     lit $"]"
                       (greedy is_space (fun _ =>
                          dollar (fun rest =>
                            Some ([Some g1; Some g2; Some g3], rest))) []))
                     [])) []) [])) []) []).

(** [Action: (.*?)\s*\[(.*?)\]], ignoring case. *)
Definition pattern_action_only : anchored :=
  lit_ci $"Action: "
    (lazy_any (fun g1 =>
       greedy is_space (fun _ =>
         lit $"["
           (lazy_any (fun g2 =>
              lit $"]" (fun rest => Some ([Some g1; Some g2], rest))) []))
         []) []).

(** [Thought: (.*?)\s*$], ignoring case. *)
Definition thought_pattern : anchored :=
  lit_ci $"Thought: "
    (lazy_any (fun g1 =>
       greedy is_space (fun _ =>
         dollar (fun rest => Some ([Some g1], rest))) []) []).

Definition synthesized_thought : str :=
  $"Synthesized Thought: Agent found an unformatted Action intent in the raw output.".

(** [_parse_action]: (full_text, action_name, action_input), or [None]. *)
Definition _parse_action (text : str) : Exc (option (str * str * str)) :=
  match search pattern_perfect text with
  | Some match_perfect =>
      full_text <- group_strip match_perfect 0 ;;
      action_name <- group_strip match_perfect 2 ;;
      action_input <- group_strip match_perfect 3 ;;
      Ok (Some (full_text, action_name, action_input))
  | None =>
      match search pattern_action_only text with
      | Some match_action_only =>
          action_name <- group_strip match_action_only 1 ;;
          action_input <- group_strip match_action_only 2 ;;
          let thought_text := strip (firstn (m_start match_action_only) text) in
          let thought_text :=
            if truthy thought_text then thought_text else synthesized_thought in
          let synthetic_full_text :=
            $"Thought: " ++ thought_text ++ ["010"%char] ++ $"Action: "
            ++ action_name ++ $"[" ++ action_input ++ $"]" in
          Ok (Some (synthetic_full_text, action_name, action_input))
      | None =>
          match search thought_pattern text with
          | Some _ => Ok (Some (strip text, [], []))
          | None => Ok None
          end
      end
  end.

(** The loop detection of [stream]: the signature of the action, the test
    against the recent actions, and the append.  [true] is a detected loop,
    which leaves the history as it is. *)
Definition ActionSignature := (str * str)%type.

Definition sig_eqb (a b : ActionSignature) : bool :=
  str_eqb (fst a) (fst b) && str_eqb (snd a) (snd b).

Definition loop_guard (history_length : nat)
    (action_history : list ActionSignature) (action_name action_input : str)
  : bool * list ActionSignature :=
  let current_action_signature := (lower action_name, action_input) in
  if negb (str_eqb (lower action_name) $"finish")
     && existsb (sig_eqb current_action_signature) action_history
  then (true, action_history)
  else (false, deque_append history_length action_history
                 current_action_signature).

(** [\[STDOUT\]:\s*] followed by the group [.*]. *)
Definition stdout_pattern : anchored :=
  lit $"[STDOUT]:"
    (greedy is_space (fun _ =>
       greedy_any (fun g1 rest => Some ([Some g1], rest))) []).

(** The state an agent object keeps between the calls of its methods. *)
Record Agent := mkAgent {
  messages : list BaseMessage;
  action_history : list ActionSignature
}.

Section Agent.
(** [llm.astream(prompt_messages)]: the chunks put together, or an
    exception. *)
Variable llm : list BaseMessage -> Exc str.
Variable tools : list BaseTool.
Variable max_iterations : Z.
Variable history_length : nat.
Variable _system_prompt : str.

Definition critical_instruction : str :=
  $"CRITICAL: You have the successful observation. Immediately generate the final answer using the Thought: ... Action: finish[...] format. DO NOT HALLUCINATE A FAILURE. Copy the observation content *exactly* into the finish[] action.".

Definition last_is_tool (messages : list BaseMessage) : bool :=
  match last_opt messages with
  | Some m => is_ToolMessage m
  | None => false
  end.

Definition last_is_success (messages : list BaseMessage) : bool :=
  match last_opt messages with
  | Some (ToolMessage c _ _) => contains $"SUCCESS" c
  | _ => false
  end.

Definition prompt_messages (messages : list BaseMessage) : list BaseMessage :=
  [SystemMessage _system_prompt] ++ messages
  ++ (if last_is_success messages
      then [HumanMessage critical_instruction] else []).

Definition newline_to_space (c : ascii) : ascii :=
  if Ascii.eqb c "010" then " "%char else c.

(** The repair of [_stream_thought_action]: a forced [finish]. *)
Definition repair (messages : list BaseMessage) (full_response : str)
  : Exc (str * str * str) :=
  let raw_output_snippet := strip full_response in
  r <- (if last_is_success messages then
          let last_observation_content :=
            match last_opt messages with
            | Some m => msg_content m
            | None => []
            end in
          let synthetic_thought :=
            $"Agent successfully executed a tool and received a SUCCESS Observation, but failed to form a complete Action or hallucinated an incorrect answer. Forcing a 'finish' action by synthesizing the final answer from the verified Observation content." in
          match search stdout_pattern last_observation_content with
          | Some stdout_match =>
              c <- group_strip stdout_match 1 ;; Ok (synthetic_thought, c)
          | None => Ok (synthetic_thought, strip last_observation_content)
          end
        else
          Ok ($"The model responded conversationally or with an incomplete format. Forcing a 'finish' action to deliver the response: '"
              ++ map newline_to_space (firstn 80 raw_output_snippet)
              ++ $"...'",
              raw_output_snippet)) ;;
  let (synthetic_thought, final_answer_content) := r in
  let synthetic_full_text :=
    $"Thought: " ++ synthetic_thought ++ ["010"%char]
    ++ $"Action: finish[" ++ final_answer_content ++ $"]" in
  Ok (synthetic_full_text, $"finish", final_answer_content).

(** [_stream_thought_action]: the events it yields and the value it
    leaves in [self._last_action]. *)
Definition _stream_thought_action (messages : list BaseMessage)
  : list Event * Exc (option (str * str * str)) :=
  match llm (prompt_messages messages) with
  | Raise e => ([], Raise e)
  | Ok full_response =>
    match _parse_action full_response with
    | Raise e => ([], Raise e)
    | Ok parsed_action =>
      let found :=
        match parsed_action with
        | Some (full_text, name, input) =>
            if truthy name then Some (full_text, name, input) else None
        | None => None
        end in
      match found with
      | Some (full_text, name, input) =>
          ([mkEvent ThoughtAction full_text], Ok (Some (full_text, name, input)))
      | None =>
          if truthy (strip full_response) || last_is_tool messages then
            match repair messages full_response with
            | Raise e => ([], Raise e)
            | Ok (full_text, name, input) =>
                ([mkEvent ThoughtAction full_text],
                 Ok (Some (full_text, name, input)))
            end
          else ([], Ok None)
      end
    end
  end.

(** [self._tool_map] *)
Definition _tool_map (name : str) : option BaseTool := tools_get tools name.

(** [_execute_tool]: every failure comes back as the observation. *)
Definition _execute_tool (name input_str : str) : str :=
  match _tool_map name with
  | None =>
      $"Error: Tool '" ++ name ++ $"' not found. Available tools: "
      ++ repr_names (dict_keys [] (map tool_name tools))
  | Some tool =>
      match tool_func tool input_str with
      | Ok observation => observation
      | Raise e =>
          $"Tool Execution Error for " ++ name ++ $": " ++ exn_msg e
      end
  end.

Definition no_action_error : Event :=
  mkEvent Error
    $"LLM failed to produce a complete 'Action: [Tool name][Tool input]' after a Thought.".

Definition loop_detected_error (i : Z) (action_name action_input : str) : Event :=
  mkEvent Error
    ($"Loop Detected on iteration " ++ str_of_Z i
     ++ $": Repetitive action '" ++ action_name ++ $"[" ++ action_input
     ++ $"]'. Terminating early to prevent infinite execution. Revise your thought process.").

Definition max_steps_error : Event :=
  mkEvent Error
    ($"Maximum steps (" ++ str_of_Z max_iterations
     ++ $") reached without a final answer. Agent failed to converge to a solution. Review the agent's memory trace.").

(** The body of the [for] loop of [stream]. *)
Definition body (i : Z) (self : Agent) : list Event * Flow Agent :=
  match _stream_thought_action (messages self) with
  | (evs, Raise e) => (evs ++ [mkEvent Error (exn_msg e)], Done self)
  | (evs, Ok None) => (evs ++ [no_action_error], Done self)
  | (evs, Ok (Some (full_text, action_name, action_input))) =>
      match loop_guard history_length (action_history self)
                       action_name action_input with
      | (true, _) =>
          (evs ++ [loop_detected_error i action_name action_input], Done self)
      | (false, action_history') =>
          if str_eqb (lower action_name) $"finish" then
            (evs ++ [mkEvent FinalAnswer action_input],
             Done (mkAgent (messages self ++ [AIMessage full_text])
                           action_history'))
          else
            let observation := _execute_tool action_name action_input in
            let tool_msg :=
              ToolMessage observation
                ($"call_" ++ action_name ++ $"_" ++ str_of_Z i)
                action_name in
            (evs ++ [mkEvent Observation observation],
             Next (mkAgent (messages self ++ [AIMessage full_text; tool_msg])
                           action_history'))
      end
  end.

(** [self.messages.clear()], [self.messages.append(HumanMessage(query))] and
    [self.action_history.clear()]. *)
Definition reset (self : Agent) (query : str) : Agent :=
  mkAgent ([] ++ [HumanMessage query]) [].

(** [stream(query)], driven to completion, on an agent in state [self]; the
    result carries the state the agent is left in. *)
Definition stream (self : Agent) (query : str) : Run * Agent :=
  for_loop body (fun self => prompt_messages (messages self)) max_steps_error
    (Z.to_nat max_iterations) 1 (reset self query).
End Agent.

End custom_react_agent.

(** ** [lib/react_agent.py]: the streaming [ReActAgent] *)

Module react_agent.

(** [Action\s*\d*:\s*([a-zA-Z0-9_-]+)\s*\[(.*?)\]] *)
Definition action_regex : anchored :=
  lit $"Action"
    (greedy is_space (fun _ =>
       greedy is_digit (fun _ =>
         lit $":"
           (greedy is_space (fun _ =>
              greedy1 is_name_char (fun g1 =>
                greedy is_space (fun _ =>
                  lit $"["
                    (lazy_any (fun g2 =>
                       lit $"]" (fun rest => Some ([Some g1; Some g2], rest)))
                       [])) [])) [])) []) []).

(** What the model streams back: the chunks, and the exception that ends
    the stream if it breaks off. *)
Record Reply := mkReply {
  chunks : list str;
  failure : option Exn
}.

Definition ValueError (msg : str) : Exn := mkExn $"ValueError" msg.

Section Agent.
(** [llm.astream(self.messages)] *)
Variable llm : list BaseMessage -> Reply.
Variable tools : list BaseTool.
Variable max_iterations : Z.
Variable system_prompt : str.
(** What [json.loads] makes of a [finish] argument: [Some v] when the
    argument decodes to a JSON object, [v] being the [str] of
    [parsed.get("input", action_input)]; [None] when decoding fails or
    yields something that has no [get]. *)
Variable finish_input : str -> option str.
(** What [json.loads] does with the argument of a tool action: [Some e] when
    it raises an exception [e] that is not a [json.JSONDecodeError] (a
    [RecursionError] on an argument nested too deep), which the [except
    json.JSONDecodeError] clause lets through and nothing else in [stream]
    catches; [None] when it returns or raises [json.JSONDecodeError]. *)
Variable loads_raises : str -> option Exn.

(** The messages of a newly built agent. *)
Definition init : list BaseMessage := [SystemMessage system_prompt].

(** [clear] *)
Definition clear (messages : list BaseMessage) : list BaseMessage :=
  firstn 1 messages.

(** [_stream_thought_action]: the events it yields and the value it
    leaves in [self._last_action], or the exception it raises. *)
Definition _stream_thought_action (messages : list BaseMessage)
  : list Event * Exc (str * str * str) :=
  let reply := llm messages in
  let full_text := List.concat (chunks reply) in
  let evs := map (mkEvent Thought) (chunks reply) in
  match failure reply with
  | Some e => (evs, Raise e)
  | None =>
      let all_matches := findall action_regex full_text in
      match last_opt all_matches with
      | None =>
          (evs, Raise (ValueError ($"No Action found in LLM response:"
                                   ++ ["010"%char] ++ full_text)))
      | Some [action_name; action_input] =>
          (evs, Ok (full_text, strip (group_text action_name),
                    strip (group_text action_input)))
      | Some _ =>
          (evs, Raise (ValueError $"not enough values to unpack"))
      end
  end.

Definition char_events (t : EventType) (s : str) : list Event :=
  map (fun ch => mkEvent t [ch]) s.

Definition max_iterations_error : Event :=
  mkEvent Error $"Max iterations reached without finishing.".

(** The body of the [for] loop of [stream].  A tool is given the action
    argument as written: decoding it with [json.loads] first, as the source
    does, is taken as part of what the tool does with its input, except for
    the exception that decoding lets out of the generator, which ends the
    stream with no further event (see [raises]). *)
Definition body (_ : Z) (messages : list BaseMessage)
  : list Event * Flow (list BaseMessage) :=
  match _stream_thought_action messages with
  | (evs, Raise e) => (evs ++ [mkEvent Error (exn_msg e)], Done messages)
  | (evs, Ok (full_text, action_name, action_input)) =>
      let messages := messages ++ [AIMessage full_text] in
      if str_eqb (lower action_name) $"finish" then
        let final_answer_str :=
          match finish_input action_input with
          | Some v => v
          | None => action_input
          end in
        (evs ++ char_events FinalAnswer final_answer_str,
         Done (messages ++ [AIMessage final_answer_str]))
      else
        match tools_get tools action_name with
        | None =>
            (evs ++ [mkEvent Error ($"Unknown tool '" ++ action_name ++ $"'")],
             Done messages)
        | Some tool =>
            match loads_raises action_input with
            | Some _ => (evs, Done messages)
            | None =>
                match tool_func tool action_input with
                | Raise e =>
                    (evs ++ [mkEvent Error ($"Tool error: " ++ exn_msg e)],
                     Done messages)
                | Ok observation =>
                    (evs ++ char_events Observation observation,
                     Next (messages
                           ++ [HumanMessage ($"Observation: " ++ observation)]))
                end
            end
        end
  end.

(** The exception the pass through the body that starts from [messages] lets
    out of the generator, if any: the one [json.loads] raises on the
    argument of an action that is not [finish] and names a known tool. *)
Definition raises (messages : list BaseMessage) : option Exn :=
  match _stream_thought_action messages with
  | (_, Raise _) => None
  | (_, Ok (_, action_name, action_input)) =>
      if str_eqb (lower action_name) $"finish" then None
      else
        match tools_get tools action_name with
        | None => None
        | Some _ => loads_raises action_input
        end
  end.

(** [stream(user_input)], driven to completion, on an agent whose
    [self.messages] is [messages]; the result carries [self.messages] as the
    call leaves it. *)
Definition stream (messages : list BaseMessage) (user_input : str)
  : Run * list BaseMessage :=
  for_loop body (fun messages => messages) max_iterations_error
    (Z.to_nat max_iterations) 0 (messages ++ [HumanMessage user_input]).

(** The exception that ends [stream(user_input)], if one does: the one the
    last pass through the body lets out. *)
Definition stream_raises (messages : list BaseMessage) (user_input : str)
  : option Exn :=
  match last_opt (llm_calls (fst (stream messages user_input))) with
  | Some context => raises context
  | None => None
  end.

(** [invoke(user_input)]: the contents of the final-answer events, joined,
    or the exception [stream] ends in; the result carries [self.messages] as
    the call leaves it. *)
Definition invoke (messages : list BaseMessage) (user_input : str)
  : Exc BaseMessage * list BaseMessage :=
  let (run, messages') := stream messages user_input in
  (match stream_raises messages user_input with
   | Some e => Raise e
   | None =>
       Ok (AIMessage
             (List.concat
                (map ev_content
                   (filter (fun evt => EventType_eqb (ev_type evt) FinalAnswer)
                      (events run)))))
   end,
   messages').
End Agent.

End react_agent.

(** ** [lib/tools.py]: the tools the agents are given *)

Module tools.

(** *** [calculate] *)

Definition allowed_chars : str := $"0123456789.()+-*/ ".

Definition is_allowed (c : ascii) : bool :=
  existsb (Ascii.eqb c) allowed_chars.

(** [isinstance(e, SyntaxError)]: the class and its built-in subclasses. *)
Definition is_SyntaxError (e : Exn) : bool :=
  str_eqb (exn_type e) $"SyntaxError"
  || str_eqb (exn_type e) $"IndentationError"
  || str_eqb (exn_type e) $"TabError".

Section Calculate.
(** [eval(sanitized_expression)]: the value as the f-string renders it, or
    the exception raised. *)
Variable py_eval : str -> Exc str.

Definition calculate (expression : str) : str :=
  let sanitized_expression := filter is_allowed expression in
  if negb (truthy (strip sanitized_expression)) then
    $"ERROR: Invalid or empty mathematical expression."
  else
    match py_eval sanitized_expression with
    | Ok result =>
        $"SUCCESS: The result of '" ++ expression ++ $"' is " ++ result ++ $"."
    | Raise e =>
        if str_eqb (exn_type e) $"ZeroDivisionError" then
          $"ERROR: Division by zero encountered in expression: '"
          ++ expression ++ $"'."
        else if is_SyntaxError e then
          $"ERROR: Invalid mathematical syntax in expression: '"
          ++ expression ++ $"'."
        else
          $"ERROR evaluating expression '" ++ expression ++ $"': "
          ++ exn_type e ++ $": " ++ exn_msg e
    end.
End Calculate.

(** *** [run_shell_command] *)

(** How [subprocess.run(command, shell=True, ..., timeout=10, check=True)]
    ends: the captured output of a command that exits with 0, or one of the
    exceptions the function tells apart (their [stdout] and [stderr] as an
    f-string renders them). *)
Inductive ProcessOutcome :=
| Completed (stdout stderr : str)
| CalledProcessError (returncode : Z) (stdout stderr : str)
| TimeoutExpired (stdout stderr : str)
| OtherException (e : Exn).

Section Shell.
Variable subprocess_run : str -> ProcessOutcome.

Definition run_shell_command (command : str) : str :=
  match subprocess_run command with
  | Completed stdout stderr =>
      if truthy stdout && truthy stderr then
        $"SUCCESS:" ++ ["010"%char] ++ $"[STDOUT]:" ++ ["010"%char] ++ stdout
        ++ ["010"%char] ++ $"[STDERR]:" ++ ["010"%char] ++ stderr
      else if truthy stdout then
        $"SUCCESS:" ++ ["010"%char] ++ $"[STDOUT]:" ++ ["010"%char] ++ stdout
      else if truthy stderr then
        $"SUCCESS (No STDOUT):" ++ ["010"%char] ++ $"[STDERR]:"
        ++ ["010"%char] ++ stderr
      else $"SUCCESS: Command ran with no output to STDOUT or STDERR."
  | CalledProcessError returncode stdout stderr =>
      $"ERROR: Command failed with exit code " ++ str_of_Z returncode
      ++ $"." ++ ["010"%char] ++ $"[STDOUT]:" ++ ["010"%char] ++ stdout
      ++ ["010"%char] ++ $"[STDERR]:" ++ ["010"%char] ++ stderr
  | TimeoutExpired stdout stderr =>
      $"ERROR: Command timed out after 10 seconds." ++ ["010"%char]
      ++ $"[STDOUT]:" ++ ["010"%char] ++ stdout ++ ["010"%char]
      ++ $"[STDERR]:" ++ ["010"%char] ++ stderr
  | OtherException e =>
      $"ERROR executing command '" ++ command ++ $"': " ++ exn_type e
      ++ $": " ++ exn_msg e
  end.
End Shell.

(** *** The listing loop of [_list_dir_logic] *)

Definition MAX_LIST_COUNT : nat := 100.

(** An entry of [os.scandir]. *)
Record DirEntry := mkEntry {
  entry_name : str;
  entry_is_dir : bool;
  entry_is_file : bool
}.

(** [name.endswith(ext)] *)
Definition endswith (name ext : str) : bool :=
  match drop_prefix (rev ext) (rev name) with
  | Some _ => true
  | None => false
  end.

Definition truncated_marker : str :=
  $"... [TRUNCATED at " ++ str_of_Z (Z.of_nat MAX_LIST_COUNT) ++ $" items]".

(** The [for entry in it] loop, from the lists gathered so far; [extensions]
    is empty for [None] and for an empty list, which both mean no filter. *)
Fixpoint list_entries (extensions : list str) (entries : list DirEntry)
    (directories files : list str) : list str * list str :=
  match entries with
  | [] => (directories, files)
  | entry :: rest =>
      if MAX_LIST_COUNT <=? List.length directories + List.length files then
        if entry_is_dir entry
        then (directories ++ [truncated_marker], files)
        else (directories, files ++ [truncated_marker])
      else if entry_is_dir entry then
        list_entries extensions rest (directories ++ [entry_name entry]) files
      else if entry_is_file entry then
        match extensions with
        | _ :: _ =>
            if existsb (endswith (entry_name entry)) extensions
            then list_entries extensions rest directories
                   (files ++ [entry_name entry])
            else list_entries extensions rest directories files
        | [] =>
            list_entries extensions rest directories
              (files ++ [entry_name entry])
        end
      else list_entries extensions rest directories files
  end.

End tools.

(** ** Reading a run *)

(** The two kinds of event that end a stream. *)
Definition is_terminal (e : Event) : bool :=
  match ev_type e with
  | FinalAnswer | Error => true
  | _ => false
  end.

Definition no_terminal (evs : list Event) : bool :=
  forallb (fun e => negb (is_terminal e)) evs.

(** How many events of a given type a stream holds. *)
Definition count_type (t : EventType) (evs : list Event) : nat :=
  List.length (filter (fun e => EventType_eqb (ev_type e) t) evs).

(** A stream that ends in its only terminal event. *)
Definition ends_in_one_terminal (evs : list Event) : Prop :=
  exists pre last,
    evs = pre ++ [last] /\ no_terminal pre = true /\ is_terminal last = true.


(** A tool that answers every input with [4], and the decoders of action
    arguments for runs whose arguments are not JSON documents ([json.loads]
    raises [json.JSONDecodeError] on them). *)
Definition calculate : BaseTool :=
  mkTool $"calculate" $"Evaluates an arithmetic expression."
         (fun _ => Ok $"4").

Definition not_json : str -> option str := fun _ => None.

Definition loads_decode_error : str -> option Exn := fun _ => None.

(** The model streams its reply to the end without raising. *)
Definition failure_free (llm : list BaseMessage -> react_agent.Reply)
    (messages : list BaseMessage) : Prop :=
  react_agent.failure (llm messages) = None.

(** No closing bracket in an action argument. *)
Definition no_bracket (arg : str) : bool :=
  forallb (fun c => negb (Ascii.eqb c "]")) arg.

(** Each element of a list stands in relation [R] to the next one. *)
Fixpoint chain {A : Type} (R : A -> A -> Prop) (l : list A) : Prop :=
  match l with
  | a :: (b :: _) as rest => R a b /\ chain R rest
  | _ => True
  end.

(** A context that carries on an earlier one: the same messages, and more. *)
Definition extends (a b : list BaseMessage) : Prop :=
  exists ext, b = a ++ ext /\ ext <> [].




(** What follows the first occurrence of a marker in a text, stripped. *)
Definition rest_after (marker text : str) : option str :=
  option_map (fun n => strip (skipn (n + List.length marker) text))
             (find marker text).




(** The parser of the custom agent finds no action name in a reply. *)
Definition no_action_name (reply : str) : bool :=
  match custom_react_agent._parse_action reply with
  | Ok (Some (_, action_name, _)) => negb (truthy action_name)
  | Ok None => true
  | Raise _ => false
  end.

(** The files the listing loop keeps: regular files that are not
    directories and, when extensions are given, end in one of them. *)
Definition listed_file (extensions : list str) (entry : tools.DirEntry)
  : bool :=
  negb (tools.entry_is_dir entry) && tools.entry_is_file entry
  && match extensions with
     | [] => true
     | _ :: _ =>
         existsb (tools.endswith (tools.entry_name entry)) extensions
     end.

(** The verdicts of the loop guard when one action is issued [k] times in a
    row, starting from the recent actions [h]. *)
Fixpoint issue (W : nat) (h : list custom_react_agent.ActionSignature)
    (action_name action_input : str) (k : nat) : list bool :=
  match k with
  | O => []
  | S k' =>
      let (verdict, h') :=
        custom_react_agent.loop_guard W h action_name action_input in
      verdict :: issue W h' action_name action_input k'
  end.

(** The body never ends the stream during the [n] iterations that start at
    number [i] in state [st]: no finish and no fatal condition. *)
Fixpoint never_stops {St : Type} (body : Z -> St -> list Event * Flow St)
    (n : nat) (i : Z) (st : St) : bool :=
  match n with
  | O => true
  | S n' =>
      match body i st with
      | (_, Next st') => never_stops body n' (i + 1) st'
      | (_, Done _) => false
      end
  end.

(** * Properties *)

Lemma str_eqb_eq (a b : str) : str_eqb a b = true <-> a = b.
Proof.
  unfold str_eqb; destruct (list_eq_dec ascii_dec a b); split; congruence.
Qed.

Lemma str_eqb_refl (a : str) : str_eqb a a = true.
Proof. now apply str_eqb_eq. Qed.

Lemma str_eqb_neq (a b : str) : a <> b -> str_eqb a b = false.
Proof.
  intros H; destruct (str_eqb a b) eqn:E; [|reflexivity].
  now apply str_eqb_eq in E.
Qed.

(** ** The loop guard *)

Section LoopGuard.
Import custom_react_agent.

Lemma sig_eqb_refl (s : ActionSignature) : sig_eqb s s = true.
Proof. unfold sig_eqb; now rewrite !str_eqb_refl. Qed.

Lemma loop_guard_finish W h name input :
  lower name = $"finish" ->
  loop_guard W h name input
  = (false, deque_append W h (lower name, input)).
Proof.
  intros E; unfold loop_guard; rewrite E, str_eqb_refl; reflexivity.
Qed.

Lemma loop_guard_repeat W name input :
  lower name <> $"finish" ->
  loop_guard W [(lower name, input)] name input
  = (true, [(lower name, input)]).
Proof.
  intros E; unfold loop_guard.
  rewrite (str_eqb_neq _ _ E); cbn [negb andb existsb].
  now rewrite sig_eqb_refl.
Qed.

Lemma loop_guard_first W name input :
  1 <= W ->
  loop_guard W [] name input = (false, [(lower name, input)]).
Proof.
  intros HW; unfold loop_guard; cbn [existsb]; rewrite andb_false_r.
  unfold deque_append; cbn [app List.length].
  replace (1 - W) with 0 by lia. reflexivity.
Qed.

Lemma issue_repeat W name input k :
  lower name <> $"finish" ->
  issue W [(lower name, input)] name input k = repeat true k.
Proof.
  intros E; induction k as [|k IH]; [reflexivity|].
  cbn [issue repeat]; rewrite (loop_guard_repeat W name input E); now rewrite IH.
Qed.

Lemma issue_finish W name input k :
  lower name = $"finish" ->
  forall h, issue W h name input k = repeat false k.
Proof.
  intros E; induction k as [|k IH]; intros h; [reflexivity|].
  cbn [issue repeat]; rewrite (loop_guard_finish W h name input E); now rewrite IH.
Qed.

Lemma issue_window_zero name input k :
  forall h, h = [] -> issue 0 h name input k = repeat false k.
Proof.
  induction k as [|k IH]; intros h ->; [reflexivity|].
  cbn [issue repeat]. unfold loop_guard; cbn [existsb].
  rewrite andb_false_r. rewrite IH; [reflexivity|].
  unfold deque_append; cbn. reflexivity.
Qed.

(** C2, as the claim states it, fails: with a window of 3 the second issue
    of [search[foo]] is already reported as a loop, so the guard does not
    answer ok three times. *)
Lemma C2_counterexample :
  issue 3 [] $"search" $"foo" 4 <> repeat false 3 ++ [true].
Proof. vm_compute; discriminate. Qed.

(** C2 (amended): for every window size [W >= 1] and every action whose
    lowercased name is not [finish], issuing the action repeatedly to the
    guard yields ok on the first issue and loop-detected on every later one
    (so [W + 1] issues give one ok and then [W] detections); an action whose
    lowercased name is [finish] never yields loop-detected, whatever the
    window holds. *)
Theorem C2_loop_guard_flags_first_repeat :
  forall (W : nat) (name input : str) (k : nat),
    (lower name <> $"finish" -> 1 <= W ->
       issue W [] name input (S k) = false :: repeat true k) /\
    (lower name = $"finish" ->
       forall h, issue W h name input k = repeat false k).
Proof.
  intros W name input k; split.
  - intros E HW. cbn [issue].
    rewrite (loop_guard_first W name input HW).
    now rewrite issue_repeat.
  - intros E h. now apply issue_finish.
Qed.

Lemma C2_witness :
  issue 3 [] $"search" $"foo" 4 = [false; true; true; true]
  /\ issue 3 [] $"Finish" $"done" 4 = [false; false; false; false].
Proof.
  split.
  - apply (proj1 (C2_loop_guard_flags_first_repeat 3 $"search" $"foo" 3)).
    + vm_compute; discriminate.
    + lia.
  - apply (proj2 (C2_loop_guard_flags_first_repeat 3 $"Finish" $"done" 4)).
    vm_compute; reflexivity.
Defined.

End LoopGuard.

(** ** The [for] loop of a stream *)

Lemma no_terminal_app (a b : list Event) :
  no_terminal (a ++ b) = no_terminal a && no_terminal b.
Proof. unfold no_terminal; apply forallb_app. Qed.

Lemma count_type_app t (a b : list Event) :
  count_type t (a ++ b) = count_type t a + count_type t b.
Proof. unfold count_type; now rewrite filter_app, length_app. Qed.



Section ForLoop.
Context {St : Type}.
Variable body : Z -> St -> list Event * Flow St.
Variable ctx : St -> list BaseMessage.
Variable exhausted : Event.

(** [Q] describes how a stream may end. *)
Variable Q : list Event -> Prop.

Hypothesis body_next :
  forall i st evs st', body i st = (evs, Next st') -> no_terminal evs = true.
Hypothesis body_done :
  forall i st evs st', body i st = (evs, Done st') ->
    exists pre tail, evs = pre ++ tail /\ no_terminal pre = true /\ Q tail.
Hypothesis Q_exhausted : Q [exhausted].


Lemma for_loop_exhausted (n : nat) :
  forall i st,
    never_stops body n i st = true ->
    exists pre,
      events (fst (for_loop body ctx exhausted n i st)) = pre ++ [exhausted]
      /\ no_terminal pre = true
      /\ List.length (llm_calls (fst (for_loop body ctx exhausted n i st))) = n.
Proof.
  induction n as [|n IH]; intros i st Hn.
  - exists []; cbn; auto.
  - cbn [for_loop never_stops] in *.
    destruct (body i st) as [evs [st'|st']] eqn:E; [|discriminate].
    destruct (IH (i + 1)%Z st' Hn) as (pre & Hev & Hpre & Hlen).
    destruct (for_loop body ctx exhausted n (i + 1) st') as [r st''].
    cbn [fst events llm_calls] in *. exists (evs ++ pre).
    rewrite Hev, app_assoc, no_terminal_app, Hpre.
    rewrite (body_next _ _ _ _ E). cbn [List.length]. auto.
Qed.

End ForLoop.

Lemma last_opt_cons {A} (a : A) (l : list A) :
  last_opt (a :: l) = match l with [] => Some a | _ :: _ => last_opt l end.
Proof.
  unfold last_opt. cbn [rev]. destruct l as [|b l]; [reflexivity|].
  destruct (rev (b :: l)) as [|x r] eqn:R; [|reflexivity].
  apply (f_equal (@List.length A)) in R. rewrite length_rev in R. discriminate.
Qed.

Section ForLoopEnd.
Context {St : Type}.
Variable body : Z -> St -> list Event * Flow St.
Variable ctx : St -> list BaseMessage.
Variable exhausted : Event.

Hypothesis body_next :
  forall i st evs st', body i st = (evs, Next st') -> no_terminal evs = true.


End ForLoopEnd.

Lemma for_loop_done {St : Type} (body : Z -> St -> list Event * Flow St)
    (ctx : St -> list BaseMessage) (exhausted : Event) n i st evs st' :
  body i st = (evs, Done st') ->
  for_loop body ctx exhausted (S n) i st = (mkRun evs [ctx st], st').
Proof. intros H; cbn [for_loop]; now rewrite H. Qed.


Lemma for_loop_first_call {St : Type} (body : Z -> St -> list Event * Flow St)
    (ctx : St -> list BaseMessage) (exhausted : Event) n i st :
  hd_error (llm_calls (fst (for_loop body ctx exhausted (S n) i st)))
  = Some (ctx st).
Proof.
  cbn [for_loop]. destruct (body i st) as [evs [st'|st']]; [|reflexivity].
  destruct (for_loop body ctx exhausted n (i + 1) st'); reflexivity.
Qed.

(** ** [OptimalReActAgent.stream] *)

Section AgentsStream.
Import agents.
Variable llm : list BaseMessage -> Exc str.
Variable tools : list BaseTool.
Variable max_iterations : Z.
Variable sparse_reasoning : bool.

Lemma format_check_cases llm_output thought action_executed history :
  format_check sparse_reasoning llm_output thought action_executed history
  = ([dense_error llm_output], Ok Return)
  \/ format_check sparse_reasoning llm_output thought action_executed history
     = ([sparse_error llm_output], Ok Return)
  \/ format_check sparse_reasoning llm_output thought action_executed history
     = ([], Ok (Continue history)).
Proof.
  unfold format_check.
  destruct (negb sparse_reasoning && _); [now left|].
  destruct (sparse_reasoning && _ && _); [right; now left|right; now right].
Qed.

Lemma ends_in_one_terminal_snoc (pre : list Event) (last : Event) :
  no_terminal pre = true -> is_terminal last = true ->
  ends_in_one_terminal (pre ++ [last]).
Proof. intros; exists pre, last; auto. Qed.

(** What the events of one pass through the [try] look like, by the way the
    pass ends. *)
Lemma iteration_events i history evs out :
  iteration llm tools max_iterations sparse_reasoning i history = (evs, out) ->
  match out with
  | Ok Return => ends_in_one_terminal evs
  | Ok (Continue _) | Raise _ => no_terminal evs = true
  end.
Proof.
  unfold iteration.
  destruct (llm history) as [llm_output|e].
  2:{ intros H; inversion H; subst; reflexivity. }
  destruct (_parse_agent_output llm_output) as [[[thought name] input]|e].
  2:{ intros H; inversion H; subst; reflexivity. }
  set (e_thought := if opt_truthy thought then _ else _).
  assert (Hth : no_terminal e_thought = true)
    by (subst e_thought; destruct (opt_truthy thought); reflexivity).
  set (e_info := mkEvent Info _).
  assert (Hpre : no_terminal (e_info :: e_thought) = true)
    by (unfold no_terminal in *; cbn [forallb]; now rewrite Hth).
  assert (Hfmt : forall ae h pre evs' out',
             no_terminal pre = true ->
             (let (e_fmt, o) :=
                format_check sparse_reasoning llm_output thought ae h in
              (pre ++ e_fmt, o)) = (evs', out') ->
             match out' with
             | Ok Return => ends_in_one_terminal evs'
             | Ok (Continue _) | Raise _ => no_terminal evs' = true
             end).
  { intros ae h pre evs' out' Hp.
    destruct (format_check_cases llm_output thought ae h) as [E|[E|E]];
      rewrite E; intros H; inversion H; subst.
    - now apply ends_in_one_terminal_snoc.
    - now apply ends_in_one_terminal_snoc.
    - now rewrite app_nil_r. }
  destruct name as [name|].
  - destruct (str_eqb name $"finish").
    + intros H; inversion H; subst.
      rewrite app_comm_cons. now apply ends_in_one_terminal_snoc.
    + destruct (truthy name), input as [input|];
        try (apply (Hfmt false _ (e_info :: e_thought)); assumption).
      destruct (_execute_tool tools name input) as [observation|e].
      * intros H.
        apply (Hfmt true
                 ((if negb sparse_reasoning
                   then (if sparse_reasoning
                         then history ++ [AIMessage llm_output] else history)
                        ++ [AIMessage llm_output]
                   else (if sparse_reasoning
                         then history ++ [AIMessage llm_output] else history))
                  ++ [HumanMessage ($"Observation: " ++ observation)])
                 ((e_info :: e_thought)
                  ++ [mkEvent ActionInput
                        ($"Action: " ++ name ++ $"[" ++ input ++ $"]");
                      mkEvent Observation observation])).
        -- rewrite no_terminal_app, Hpre; reflexivity.
        -- rewrite <- H.
           destruct (format_check _ _ _ _ _) as [e_fmt o].
           cbn [app]. now rewrite <- !app_assoc.
      * intros H; inversion H; subst.
        rewrite app_comm_cons, no_terminal_app, Hpre; reflexivity.
  - apply (Hfmt false _ (e_info :: e_thought)); assumption.
Qed.


Lemma body_next_no_terminal i history evs history' :
  body llm tools max_iterations sparse_reasoning i history
  = (evs, Next history') ->
  no_terminal evs = true.
Proof.
  unfold body.
  destruct (iteration _ _ _ _ i history) as [evs0 out] eqn:E.
  pose proof (iteration_events _ _ _ _ E) as H.
  destruct out as [[|h]|e]; intros H0; inversion H0; subst; assumption.
Qed.


End AgentsStream.

(** ** The custom [ReActAgent.stream] *)

Section CustomStream.
Import custom_react_agent.
Variable llm : list BaseMessage -> Exc str.
Variable tools : list BaseTool.
Variable max_iterations : Z.
Variable history_length : nat.
Variable _system_prompt : str.

Lemma custom_thought_action_events msgs evs r :
  _stream_thought_action llm _system_prompt msgs = (evs, r) ->
  no_terminal evs = true.
Proof.
  unfold _stream_thought_action.
  destruct (llm _) as [full_response|e];
    [|intros H; inversion H; reflexivity].
  destruct (_parse_action full_response) as [parsed|e];
    [|intros H; inversion H; reflexivity].
  destruct (match parsed with Some _ => _ | None => _ end) as [[[ft n] inp]|].
  - intros H; inversion H; reflexivity.
  - destruct (truthy _ || _); [|intros H; inversion H; reflexivity].
    destruct (repair _ _) as [[[ft n] inp]|e];
      intros H; inversion H; reflexivity.
Qed.

Lemma custom_body_shape i self evs flow :
  body llm tools history_length _system_prompt i self = (evs, flow) ->
  match flow with
  | Next _ => no_terminal evs = true
  | Done _ => ends_in_one_terminal evs
  end.
Proof.
  unfold body.
  destruct (_stream_thought_action _ _ _) as [evs0 r] eqn:E.
  pose proof (custom_thought_action_events _ _ _ E) as H0.
  destruct r as [[[[ft n] inp]|]|e].
  - destruct (loop_guard _ _ _ _) as [[|] h'].
    + intros H; inversion H; subst.
      now apply ends_in_one_terminal_snoc.
    + destruct (str_eqb _ _); intros H; inversion H; subst.
      * now apply ends_in_one_terminal_snoc.
      * rewrite no_terminal_app, H0; reflexivity.
  - intros H; inversion H; subst. now apply ends_in_one_terminal_snoc.
  - intros H; inversion H; subst. now apply ends_in_one_terminal_snoc.
Qed.

Lemma custom_body_next i self evs self' :
  body llm tools history_length _system_prompt i self = (evs, Next self') ->
  no_terminal evs = true.
Proof. intros H; exact (custom_body_shape _ _ _ _ H). Qed.


End CustomStream.

(** ** The streaming [ReActAgent.stream] of [react_agent.py] *)

Section ReactStream.
Import react_agent.
Variable llm : list BaseMessage -> Reply.
Variable tools : list BaseTool.
Variable max_iterations : Z.
Variable finish_input : str -> option str.
Variable loads_raises : str -> option Exn.

Lemma no_terminal_thoughts (cs : list str) :
  no_terminal (map (mkEvent Thought) cs) = true.
Proof. induction cs; [reflexivity|assumption]. Qed.

Lemma no_terminal_observation (s : str) :
  no_terminal (char_events Observation s) = true.
Proof. induction s; [reflexivity|assumption]. Qed.

Lemma react_thought_action_events msgs evs r :
  _stream_thought_action llm msgs = (evs, r) ->
  evs = map (mkEvent Thought) (chunks (llm msgs)).
Proof.
  unfold _stream_thought_action.
  destruct (failure _); [intros H; now inversion H|].
  destruct (last_opt _) as [[|a [|b [|c l]]]|]; intros H; now inversion H.
Qed.

(** A pass that goes on to the next iteration yields no terminal event and
    lets no exception out. *)
Lemma react_body_next i msgs evs msgs' :
  body llm tools finish_input loads_raises i msgs = (evs, Next msgs') ->
  no_terminal evs = true /\ raises llm tools loads_raises msgs = None.
Proof.
  unfold body, raises.
  destruct (_stream_thought_action _ _) as [evs0 r] eqn:E.
  apply react_thought_action_events in E.
  assert (H0 : no_terminal evs0 = true)
    by (rewrite E; apply no_terminal_thoughts).
  destruct r as [[[ft n] inp]|e]; [|discriminate].
  destruct (str_eqb _ _); [discriminate|].
  destruct (tools_get tools n) as [tool|]; [|discriminate].
  destruct (loads_raises inp); [discriminate|].
  destruct (tool_func tool inp) as [obs|e]; [|discriminate].
  intros H; inversion H; subst evs.
  now rewrite no_terminal_app, H0, no_terminal_observation.
Qed.


End ReactStream.

(** ** How a stream ends *)





(** ** The iteration budget *)

(** C8, as the claim states it, fails on [react_agent.py]: with a budget of 2
    and a model that keeps calling a tool, the stream ends in an error event
    whose text does not hold the budget. *)
Lemma C8_counterexample :
  let llm := fun _ => react_agent.mkReply [$"Action: calculate[2+2]"] None in
  never_stops (react_agent.body llm [calculate] not_json loads_decode_error)
    2 0 [SystemMessage $"system"; HumanMessage $"query"] = true
  /\ exists pre content,
       events (fst (react_agent.stream llm [calculate] 2 not_json
                      loads_decode_error [SystemMessage $"system"] $"query"))
       = pre ++ [mkEvent Error content]
       /\ contains (str_of_Z 2) content = false.
Proof.
  intros llm; split; [vm_compute; reflexivity|].
  exists (removelast
            (events (fst (react_agent.stream llm [calculate] 2 not_json
                            loads_decode_error [SystemMessage $"system"]
                            $"query")))),
         $"Max iterations reached without finishing.".
  split; vm_compute; reflexivity.
Qed.

(** C8 (amended): for every budget, if no finish and no fatal condition
    occurs within the budgeted iterations, the stream ends in exactly one
    error event signalling the exhausted budget, with no terminal event
    before it and none after, and the model was called once per iteration.
    In [agents.py] and in [custom_react_agent.py] that event carries the
    configured budget; in [react_agent.py] its text is fixed. *)
Theorem C8_budget_exhausted_ends_in_one_error :
  forall (N : Z),
    (forall llm tools sparse_reasoning system_prompt user_input,
        never_stops (agents.body llm tools N sparse_reasoning) (Z.to_nat N) 1
          [SystemMessage system_prompt; HumanMessage user_input] = true ->
        let run := agents.stream llm tools N sparse_reasoning system_prompt
                     user_input in
        exists pre,
          events run
          = pre ++ [mkEvent Error
                      ($"Max iterations (" ++ str_of_Z N
                       ++ $") reached without finding a Final Answer. Agent stopped.")]
          /\ no_terminal pre = true
          /\ List.length (llm_calls run) = Z.to_nat N)
    /\ (forall llm tools history_length system_prompt self query,
        never_stops
          (custom_react_agent.body llm tools history_length system_prompt)
          (Z.to_nat N) 1 (custom_react_agent.reset self query) = true ->
        let run := fst (custom_react_agent.stream llm tools N history_length
                          system_prompt self query) in
        exists pre,
          events run
          = pre ++ [mkEvent Error
                      ($"Maximum steps (" ++ str_of_Z N
                       ++ $") reached without a final answer. Agent failed to converge to a solution. Review the agent's memory trace.")]
          /\ no_terminal pre = true
          /\ List.length (llm_calls run) = Z.to_nat N)
    /\ (forall llm tools finish_input loads_raises messages user_input,
        never_stops (react_agent.body llm tools finish_input loads_raises)
          (Z.to_nat N) 0 (messages ++ [HumanMessage user_input]) = true ->
        let run := fst (react_agent.stream llm tools N finish_input
                          loads_raises messages user_input) in
        exists pre,
          events run
          = pre ++ [mkEvent Error $"Max iterations reached without finishing."]
          /\ no_terminal pre = true
          /\ List.length (llm_calls run) = Z.to_nat N).
Proof.
  intros N; split; [|split].
  - intros llm tools sparse sys q Hn run. subst run. unfold agents.stream.
    apply for_loop_exhausted; [apply body_next_no_terminal|exact Hn].
  - intros llm tools W sys self q Hn run. subst run.
    unfold custom_react_agent.stream.
    apply for_loop_exhausted; [apply custom_body_next|exact Hn].
  - intros llm tools fin loads msgs q Hn run. subst run.
    unfold react_agent.stream.
    apply for_loop_exhausted; [|exact Hn].
    intros i st evs st' H. exact (proj1 (react_body_next _ _ _ _ _ _ _ _ H)).
Qed.

Lemma C8_witness :
  let llm := fun _ : list BaseMessage => Ok $"Thought: add
Action: calculate[2+2]" in
  exists pre,
    events (agents.stream llm [calculate] 3 false $"system" $"query")
    = pre ++ [mkEvent Error
                $"Max iterations (3) reached without finding a Final Answer. Agent stopped."]
    /\ no_terminal pre = true
    /\ List.length
         (llm_calls (agents.stream llm [calculate] 3 false $"system" $"query"))
       = 3.
Proof.
  intros llm.
  apply (proj1 (C8_budget_exhausted_ends_in_one_error 3)
           llm [calculate] false $"system" $"query").
  vm_compute; reflexivity.
Defined.

(** ** Matchers *)

Section MatcherLemmas.
Context {A : Type}.

(** A greedy repetition hands its continuation a run of the class. *)
Lemma greedy_elim (p : ascii -> bool) (k : str -> str -> option A) :
  forall s acc a,
    greedy p k acc s = Some a ->
    exists run rest,
      s = run ++ rest /\ forallb p run = true /\ k (acc ++ run) rest = Some a.
Proof.
  induction s as [|c t IH]; intros acc a H; cbn [greedy] in H.
  - exists [], []; cbn [app]; rewrite ?app_nil_r; auto.
  - destruct (p c) eqn:Hc.
    + destruct (greedy p k (acc ++ [c]) t) as [a'|] eqn:G.
      * inversion H; subst a'.
        destruct (IH _ _ G) as (run & rest & -> & Hr & Hk).
        exists (c :: run), rest; cbn [forallb app]; rewrite Hc, Hr.
        rewrite <- app_assoc in Hk; auto.
      * exists [], (c :: t); cbn [app]; rewrite ?app_nil_r; auto.
    + exists [], (c :: t); cbn [app]; rewrite ?app_nil_r; auto.
Qed.

Lemma greedy1_elim (p : ascii -> bool) (k : str -> str -> option A) s a :
  greedy1 p k s = Some a ->
  exists run rest,
    s = run ++ rest /\ run <> [] /\ forallb p run = true
    /\ k run rest = Some a.
Proof.
  unfold greedy1; destruct s as [|c t]; [discriminate|].
  destruct (p c) eqn:Hc; [|discriminate]. intros H.
  destruct (greedy_elim _ _ _ _ _ H) as (run & rest & -> & Hr & Hk).
  exists (c :: run), rest; cbn [forallb app]; rewrite Hc, Hr.
  repeat split; auto; discriminate.
Qed.

Lemma lazy_any_elim (k : str -> str -> option A) :
  forall s acc a,
    lazy_any k acc s = Some a ->
    exists pre rest, s = pre ++ rest /\ k (acc ++ pre) rest = Some a.
Proof.
  induction s as [|c t IH]; intros acc a H; cbn [lazy_any] in H.
  - destruct (k acc []) eqn:E; [|discriminate]. inversion H; subst.
    exists [], []; cbn [app]; rewrite ?app_nil_r; auto.
  - destruct (k acc (c :: t)) eqn:E.
    + inversion H; subst. exists [], (c :: t); cbn [app]; rewrite ?app_nil_r; auto.
    + destruct (IH _ _ H) as (pre & rest & -> & Hk).
      exists (c :: pre), rest; rewrite <- app_assoc in Hk; auto.
Qed.

Lemma lit_elim (p : str) (k : str -> option A) s a :
  lit p k s = Some a -> exists r, drop_prefix p s = Some r /\ k r = Some a.
Proof. unfold lit; destruct (drop_prefix p s); [eauto|discriminate]. Qed.

Lemma lit_ci_elim (p : str) (k : str -> option A) s a :
  lit_ci p k s = Some a ->
  exists r, drop_prefix_ci p s = Some r /\ k r = Some a.
Proof. unfold lit_ci; destruct (drop_prefix_ci p s); [eauto|discriminate]. Qed.

Lemma dollar_elim (k : str -> option A) s a :
  dollar k s = Some a -> k s = Some a.
Proof.
  unfold dollar; destruct s as [|c [|d t]]; auto; [|discriminate].
  destruct (Ascii.eqb c "010"); [auto|discriminate].
Qed.

(** When the run is followed by a character outside the class (or by the end
    of the text) and the continuation accepts it, the greedy repetition takes
    the whole run. *)
Lemma greedy_intro (p : ascii -> bool) (k : str -> str -> option A) :
  forall run acc rest a,
    forallb p run = true ->
    match rest with [] => true | c :: _ => negb (p c) end = true ->
    k (acc ++ run) rest = Some a ->
    greedy p k acc (run ++ rest) = Some a.
Proof.
  induction run as [|c run IH]; intros acc rest a Hr Hrest Hk.
  - rewrite app_nil_r in Hk; cbn [app].
    destruct rest as [|c t]; cbn [greedy]; [exact Hk|].
    apply negb_true_iff in Hrest; now rewrite Hrest.
  - cbn [forallb] in Hr; apply andb_true_iff in Hr; destruct Hr as [Hc Hr].
    cbn [app greedy]; rewrite Hc.
    rewrite (IH (acc ++ [c]) rest a Hr Hrest); [reflexivity|].
    now rewrite <- app_assoc.
Qed.

(** The lazy repetition stops at the first split its continuation accepts. *)
Lemma lazy_any_intro (k : str -> str -> option A) :
  forall pre acc rest a,
    (forall p1 p2, pre = p1 ++ p2 -> p2 <> [] ->
                   k (acc ++ p1) (p2 ++ rest) = None) ->
    k (acc ++ pre) rest = Some a ->
    lazy_any k acc (pre ++ rest) = Some a.
Proof.
  induction pre as [|c pre IH]; intros acc rest a Hmin Hk.
  - rewrite app_nil_r in Hk; cbn [app].
    destruct rest; cbn [lazy_any]; now rewrite Hk.
  - cbn [app lazy_any].
    pose proof (Hmin [] (c :: pre) eq_refl ltac:(discriminate)) as H0.
    rewrite app_nil_r in H0; cbn [app] in H0; rewrite H0.
    apply IH.
    + intros p1 p2 -> Hp2. rewrite <- app_assoc.
      apply (Hmin (c :: p1) p2); [reflexivity|exact Hp2].
    + now rewrite <- app_assoc.
Qed.

End MatcherLemmas.

(** A match found by [search] is a match of the pattern at some position. *)
Lemma search_from_elim (re : anchored) :
  forall s pos m,
    search_from re pos s = Some m ->
    exists pre suf gs rest,
      s = pre ++ suf /\ re suf = Some (gs, rest)
      /\ m = mkMatch (pos + List.length pre) (matched_text suf rest) gs.
Proof.
  induction s as [|c t IH]; intros pos m H; cbn [search_from] in H.
  - destruct (re []) as [[gs rest]|] eqn:E; [|discriminate].
    inversion H; subst. exists [], [], gs, rest; cbn; rewrite Nat.add_0_r; auto.
  - destruct (re (c :: t)) as [[gs rest]|] eqn:E.
    + inversion H; subst.
      exists [], (c :: t), gs, rest; cbn; rewrite Nat.add_0_r; auto.
    + destruct (IH _ _ H) as (pre & suf & gs & rest & -> & Hre & ->).
      exists (c :: pre), suf, gs, rest; cbn [List.length app].
      rewrite Nat.add_succ_r; auto.
Qed.

(** [search] finds the match at the first position where the pattern has
    one. *)
Lemma search_from_intro (re : anchored) :
  forall pre pos suf gs rest,
    (forall p1 p2, pre = p1 ++ p2 -> p2 <> [] -> re (p2 ++ suf) = None) ->
    re suf = Some (gs, rest) ->
    search_from re pos (pre ++ suf)
    = Some (mkMatch (pos + List.length pre) (matched_text suf rest) gs).
Proof.
  induction pre as [|c pre IH]; intros pos suf gs rest Hmin Hre.
  - cbn [app List.length]; rewrite Nat.add_0_r.
    destruct suf; cbn [search_from]; now rewrite Hre.
  - cbn [app search_from].
    pose proof (Hmin [] (c :: pre) eq_refl ltac:(discriminate)) as H0.
    cbn [app] in H0; rewrite H0.
    rewrite (IH (S pos) suf gs rest); [|intros p1 p2 -> Hp2|exact Hre].
    + cbn [List.length]; now rewrite Nat.add_succ_r.
    + apply (Hmin (c :: p1) p2); [reflexivity|exact Hp2].
Qed.

(** ** The groups of the patterns *)

Ltac step_match H :=
  first
    [ apply lit_elim in H as (? & _ & H)
    | apply lit_ci_elim in H as (? & _ & H)
    | apply dollar_elim in H
    | apply greedy1_elim in H as (? & ? & _ & ? & ? & H)
    | apply greedy_elim in H as (? & ? & _ & ? & H)
    | apply lazy_any_elim in H as (? & ? & _ & H) ];
  cbn beta in H.

Lemma ACTION_REGEX_groups s gs rest :
  agents.ACTION_REGEX s = Some (gs, rest) ->
  exists g1 g2,
    gs = [Some g1; Some g2] /\ g1 <> [] /\ forallb is_word g1 = true.
Proof.
  unfold agents.ACTION_REGEX; intros H.
  do 7 step_match H. inversion H; subst. eauto.
Qed.

Lemma one_group_pattern (p : str) s gs rest :
  lit p (greedy is_space (fun _ =>
           greedy_any (fun g1 rest => Some ([Some g1], rest))) []) s
  = Some (gs, rest) ->
  exists g1, gs = [Some g1].
Proof.
  intros H. do 2 step_match H. unfold greedy_any in H. step_match H.
  inversion H; subst; eauto.
Qed.

Lemma pattern_perfect_groups s gs rest :
  custom_react_agent.pattern_perfect s = Some (gs, rest) ->
  exists g1 g2 g3, gs = [Some g1; Some g2; Some g3].
Proof.
  unfold custom_react_agent.pattern_perfect; intros H.
  do 11 step_match H. inversion H; subst. eauto.
Qed.

Lemma pattern_action_only_groups s gs rest :
  custom_react_agent.pattern_action_only s = Some (gs, rest) ->
  exists g1 g2, gs = [Some g1; Some g2].
Proof.
  unfold custom_react_agent.pattern_action_only; intros H.
  do 6 step_match H. inversion H; subst. eauto.
Qed.

Lemma action_regex_groups s gs rest :
  react_agent.action_regex s = Some (gs, rest) ->
  exists g1 g2, gs = [Some g1; Some g2].
Proof.
  unfold react_agent.action_regex; intros H.
  do 10 step_match H. inversion H; subst. eauto.
Qed.

(** [group(i).strip()] on a match of a pattern whose groups all take part. *)
Lemma search_groups (re : anchored) (P : list (option str) -> Prop) :
  (forall s gs rest, re s = Some (gs, rest) -> P gs) ->
  forall s m, search re s = Some m -> P (m_groups m).
Proof.
  intros Hre s m H. unfold search in H.
  apply search_from_elim in H as (pre & suf & gs & rest & _ & Hs & ->).
  cbn [m_groups]. eauto.
Qed.

(** ** Stripping *)

Lemma is_word_not_space (c : ascii) : is_word c = true -> is_space c = false.
Proof.
  destruct c as [[] [] [] [] [] [] [] []]; vm_compute; congruence.
Qed.

Lemma lstrip_id (s : str) :
  (forall c, In c s -> is_space c = false) -> lstrip s = s.
Proof.
  destruct s as [|c t]; [reflexivity|]. intros H; cbn [lstrip].
  now rewrite (H c (or_introl eq_refl)).
Qed.

Lemma strip_id (s : str) :
  (forall c, In c s -> is_space c = false) -> strip s = s.
Proof.
  intros H. unfold strip, rstrip. rewrite (lstrip_id s H).
  rewrite lstrip_id; [apply rev_involutive|].
  intros c Hc; apply H; now apply in_rev.
Qed.

Lemma strip_word (s : str) : forallb is_word s = true -> strip s = s.
Proof.
  intros H; apply strip_id; intros c Hc.
  apply is_word_not_space. rewrite forallb_forall in H; auto.
Qed.

(** ** The parsers return *)

Lemma group_strip_ok (m : Match) (j : nat) (g : str) :
  nth_error (m_groups m) j = Some (Some g) ->
  group_strip m (S j) = Ok (strip g).
Proof. unfold group_strip, group; intros ->; reflexivity. Qed.

Lemma search_ACTION_REGEX s m :
  search agents.ACTION_REGEX s = Some m ->
  exists g1 g2,
    m_groups m = [Some g1; Some g2] /\ g1 <> [] /\ forallb is_word g1 = true.
Proof.
  apply (search_groups agents.ACTION_REGEX
           (fun gs => exists g1 g2, gs = [Some g1; Some g2] /\ g1 <> []
                                    /\ forallb is_word g1 = true)).
  intros; eapply ACTION_REGEX_groups; eauto.
Qed.

Lemma search_one_group (p : str) s m :
  search (lit p (greedy is_space (fun _ =>
            greedy_any (fun g1 rest => Some ([Some g1], rest))) [])) s
  = Some m ->
  exists g1, m_groups m = [Some g1].
Proof.
  apply (search_groups _ (fun gs => exists g1, gs = [Some g1])).
  intros; eapply one_group_pattern; eauto.
Qed.

(** What [_parse_agent_output] returns, by the matches of its patterns. *)
Lemma parse_agent_output_cases (llm_output : str) :
  exists thought,
    (exists final_answer,
        agents._parse_agent_output llm_output
        = Ok (thought, Some $"finish", Some final_answer))
    \/ (exists name input,
           agents._parse_agent_output llm_output
           = Ok (thought, Some name, Some input)
           /\ name <> [] /\ forallb is_word name = true
           /\ search agents.FINAL_ANSWER_REGEX llm_output = None)
    \/ (agents._parse_agent_output llm_output = Ok (thought, None, None)
        /\ search agents.ACTION_REGEX llm_output = None
        /\ search agents.FINAL_ANSWER_REGEX llm_output = None).
Proof.
  unfold agents._parse_agent_output.
  assert (Ht : exists thought,
             match search agents.THOUGHT_REGEX llm_output with
             | Some m => t <- group_strip m 1 ;; Ok (Some t)
             | None => Ok None
             end = Ok thought).
  { destruct (search agents.THOUGHT_REGEX llm_output) as [m|] eqn:E; [|eauto].
    apply search_one_group in E as [g1 Hg].
    rewrite (group_strip_ok m 0 g1) by now rewrite Hg. cbn; eauto. }
  destruct Ht as [thought ->]. exists thought. cbn [bind].
  destruct (search agents.FINAL_ANSWER_REGEX llm_output) as [m|] eqn:EF.
  - left. apply search_one_group in EF as [g1 Hg].
    rewrite (group_strip_ok m 0 g1) by now rewrite Hg. cbn; eauto.
  - right.
    destruct (search agents.ACTION_REGEX llm_output) as [m|] eqn:EA.
    + left. apply search_ACTION_REGEX in EA as (g1 & g2 & Hg & Hne & Hw).
      rewrite (group_strip_ok m 0 g1) by now rewrite Hg.
      rewrite (group_strip_ok m 1 g2) by now rewrite Hg.
      cbn [bind]. exists (strip g1), (strip g2).
      rewrite (strip_word g1 Hw). auto.
    + right; auto.
Qed.

Lemma group_strip_0 (m : Match) : group_strip m 0 = Ok (strip (m_group0 m)).
Proof. reflexivity. Qed.

Lemma parse_action_returns (text : str) :
  exists r, custom_react_agent._parse_action text = Ok r.
Proof.
  unfold custom_react_agent._parse_action.
  destruct (search custom_react_agent.pattern_perfect text) as [m|] eqn:EP.
  - apply (search_groups custom_react_agent.pattern_perfect
             (fun gs => exists g1 g2 g3, gs = [Some g1; Some g2; Some g3]))
      in EP as (g1 & g2 & g3 & Hg);
      [|intros; eapply pattern_perfect_groups; eauto].
    rewrite group_strip_0.
    rewrite (group_strip_ok m 1 g2) by now rewrite Hg.
    rewrite (group_strip_ok m 2 g3) by now rewrite Hg.
    cbn; eauto.
  - destruct (search custom_react_agent.pattern_action_only text)
      as [m|] eqn:EA.
    + apply (search_groups custom_react_agent.pattern_action_only
               (fun gs => exists g1 g2, gs = [Some g1; Some g2]))
        in EA as (g1 & g2 & Hg);
        [|intros; eapply pattern_action_only_groups; eauto].
      rewrite (group_strip_ok m 0 g1) by now rewrite Hg.
      rewrite (group_strip_ok m 1 g2) by now rewrite Hg.
      cbn; eauto.
    + destruct (search custom_react_agent.thought_pattern text); eauto.
Qed.

Lemma findall_from_groups (re : anchored) (P : list (option str) -> Prop) :
  (forall s gs rest, re s = Some (gs, rest) -> P gs) ->
  forall s skip, Forall P (findall_from re skip s).
Proof.
  intros Hre; induction s as [|c t IH]; intros skip.
  - destruct skip; cbn [findall_from]; [|constructor].
    destruct (re []) as [[gs rest]|] eqn:E; repeat constructor; eauto.
  - destruct skip; cbn [findall_from]; [|apply IH].
    destruct (re (c :: t)) as [[gs rest]|] eqn:E; [|apply IH].
    constructor; [eauto|apply IH].
Qed.

Lemma last_opt_Forall {A} (P : A -> Prop) (xs : list A) (x : A) :
  Forall P xs -> last_opt xs = Some x -> P x.
Proof.
  unfold last_opt; intros H E.
  destruct (rev xs) as [|y l] eqn:R; [discriminate|]. inversion E; subst y.
  rewrite Forall_forall in H; apply H, in_rev. rewrite R; now left.
Qed.

Lemma last_opt_nil {A} (xs : list A) : last_opt xs = None -> xs = [].
Proof.
  unfold last_opt; destruct (rev xs) eqn:R; [|discriminate].
  intros _. rewrite <- (rev_involutive xs), R. reflexivity.
Qed.

(** *** The last action of a reply *)

Lemma drop_prefix_app (p : str) :
  forall s r, drop_prefix p s = Some r -> s = p ++ r.
Proof.
  induction p as [|a p IH]; intros s r H; cbn [drop_prefix] in H.
  - now inversion H.
  - destruct s as [|b s]; [discriminate|].
    destruct (Ascii.eqb a b) eqn:E; [|discriminate].
    apply Ascii.eqb_eq in E; subst b. cbn [app]. f_equal. now apply IH.
Qed.

(** A match of the action pattern of [react_agent.py] covers a non-empty
    stretch of text, and leaves what follows it. *)
Lemma action_regex_span s gs rest :
  react_agent.action_regex s = Some (gs, rest) ->
  exists matched, s = matched ++ rest /\ matched <> [].
Proof.
  unfold react_agent.action_regex; intros H.
  apply lit_elim in H as (r1 & D1 & H). apply drop_prefix_app in D1.
  apply greedy_elim in H as (w1 & r2 & E2 & _ & H); cbn beta in H.
  apply greedy_elim in H as (d & r3 & E3 & _ & H); cbn beta in H.
  apply lit_elim in H as (r4 & D4 & H). apply drop_prefix_app in D4.
  apply greedy_elim in H as (w2 & r5 & E5 & _ & H); cbn beta in H.
  apply greedy1_elim in H as (g1 & r6 & E6 & _ & _ & H); cbn beta in H.
  apply greedy_elim in H as (w3 & r7 & E7 & _ & H); cbn beta in H.
  apply lit_elim in H as (r8 & D8 & H). apply drop_prefix_app in D8.
  apply lazy_any_elim in H as (g2 & r9 & E9 & H); cbn beta in H.
  apply lit_elim in H as (r10 & D10 & H). apply drop_prefix_app in D10.
  inversion H; subst gs r10. subst.
  exists ($"Action" ++ w1 ++ d ++ $":" ++ w2 ++ g1 ++ w3 ++ $"[" ++ g2
          ++ $"]").
  split; [now rewrite <- !app_assoc|discriminate].
Qed.

Section FindallLast.
(** A pattern whose matches are never empty. *)
Variable re : anchored.
Hypothesis re_span :
  forall s gs rest,
    re s = Some (gs, rest) -> exists matched, s = matched ++ rest /\ matched <> [].

Lemma findall_from_skip_app (a b : str) :
  findall_from re (List.length a) (a ++ b) = findall_from re 0 b.
Proof. induction a as [|c a IH]; [reflexivity|exact IH]. Qed.

(** After a match, [findall] goes on with what follows it. *)
Lemma findall_match s gs rest :
  re s = Some (gs, rest) -> findall re s = gs :: findall re rest.
Proof.
  intros H. destruct (re_span _ _ _ H) as (m & -> & Hm).
  destruct m as [|c m]; [congruence|]. unfold findall.
  cbn [app findall_from] in *. rewrite H. f_equal.
  replace (List.length (c :: m ++ rest) - List.length rest - 1)
    with (List.length m) by (cbn [List.length]; rewrite length_app; lia).
  apply findall_from_skip_app.
Qed.

Lemma findall_nil_search :
  forall s pos, findall_from re 0 s = [] -> search_from re pos s = None.
Proof.
  induction s as [|c t IH]; intros pos H; cbn [findall_from search_from] in *;
    destruct (re _) as [[gs rest]|]; try discriminate; auto.
Qed.

(** The last element of [findall] is a match found somewhere in the text,
    after which the text holds no further match. *)
Lemma findall_last :
  forall n s gs,
    List.length s <= n ->
    last_opt (findall re s) = Some gs ->
    exists before matched rest,
      s = before ++ matched ++ rest
      /\ re (matched ++ rest) = Some (gs, rest)
      /\ matched <> []
      /\ search re rest = None.
Proof.
  induction n as [|n IH]; intros s gs Hn H.
  - destruct s; [|cbn in Hn; lia].
    unfold findall in H; cbn [findall_from] in H.
    destruct (re []) as [[g r]|] eqn:E; [|discriminate].
    destruct (re_span _ _ _ E) as (m & Hm & Hne).
    symmetry in Hm; apply app_eq_nil in Hm; destruct Hm; congruence.
  - destruct (re s) as [[g rest]|] eqn:E.
    + rewrite (findall_match _ _ _ E), last_opt_cons in H.
      destruct (re_span _ _ _ E) as (m & -> & Hne).
      destruct (findall re rest) as [|x l] eqn:F.
      * inversion H; subst g. exists [], m, rest. repeat split; auto.
        now apply findall_nil_search.
      * assert (Hl : List.length rest <= n).
        { rewrite length_app in Hn. destruct m; [congruence|].
          cbn [List.length] in Hn; lia. }
        rewrite <- F in H.
        destruct (IH rest gs Hl H) as (b & m' & r' & -> & Hre & Hm' & Hs).
        exists (m ++ b), m', r'. rewrite <- app_assoc. auto.
    + destruct s as [|c t];
        [unfold findall in H; cbn [findall_from] in H; rewrite E in H;
         discriminate|].
      unfold findall in H; cbn [findall_from] in H; rewrite E in H.
      destruct (IH t gs ltac:(cbn [List.length] in Hn; lia) H)
        as (b & m & r & -> & Hre & Hm & Hs).
      exists (c :: b), m, r. auto.
Qed.

End FindallLast.

(** C6, as the claim states it, fails on [react_agent.py]: on a reply without
    an action [_stream_thought_action] raises [ValueError]. *)
Lemma C6_counterexample :
  snd (react_agent._stream_thought_action
         (fun _ => react_agent.mkReply [$"hello"] None)
         [SystemMessage $"system"; HumanMessage $"query"])
  = Raise (mkExn $"ValueError" $"No Action found in LLM response:
hello").
Proof. vm_compute. reflexivity. Qed.

(** C6 (amended): [_parse_agent_output] of [agents.py] and [_parse_action] of
    [custom_react_agent.py] return a result on every text and never raise
    (with every field absent when nothing is recognised).  The parser of
    [react_agent.py], [_stream_thought_action], is not total.  On a reply of
    ASCII text that the model streams to the end: when the text holds no
    action it raises [ValueError], and [stream] turns that exception into
    the error event that ends the stream, after the thought events and with
    the messages unchanged; when the text holds an action it returns the last
    one, that is the name and the argument, stripped, of a match of the
    action pattern after which the text holds no further match. *)
Theorem C6_parsers_return :
  (forall text, exists thought name input,
      agents._parse_agent_output text = Ok (thought, name, input))
  /\ (forall text, exists r, custom_react_agent._parse_action text = Ok r)
  /\ (forall llm messages,
        failure_free llm messages ->
        let text := List.concat (react_agent.chunks (llm messages)) in
        ascii_text text = true ->
        (findall react_agent.action_regex text = [] ->
           snd (react_agent._stream_thought_action llm messages)
           = Raise (react_agent.ValueError
                      ($"No Action found in LLM response:" ++ ["010"%char]
                       ++ text))
           /\ forall tools finish_input loads_raises n i,
               for_loop
                 (react_agent.body llm tools finish_input loads_raises)
                 (fun m => m) react_agent.max_iterations_error (S n) i
                 messages
               = (mkRun
                    (map (mkEvent Thought) (react_agent.chunks (llm messages))
                     ++ [mkEvent Error
                           ($"No Action found in LLM response:"
                            ++ ["010"%char] ++ text)])
                    [messages],
                  messages))
        /\ (findall react_agent.action_regex text <> [] ->
           exists before matched rest name input,
             text = before ++ matched ++ rest
             /\ react_agent.action_regex (matched ++ rest)
                = Some ([Some name; Some input], rest)
             /\ matched <> []
             /\ search react_agent.action_regex rest = None
             /\ snd (react_agent._stream_thought_action llm messages)
                = Ok (text, strip name, strip input))).
Proof.
  split; [|split].
  - intros text.
    destruct (parse_agent_output_cases text)
      as (t & [(fa & H)|[(n & i & H & _)|(H & _)]]); rewrite H; eauto.
  - apply parse_action_returns.
  - intros llm messages Hf text _. unfold failure_free in Hf. split.
    + intros Hnil.
      assert (Hs : react_agent._stream_thought_action llm messages
                   = (map (mkEvent Thought) (react_agent.chunks (llm messages)),
                      Raise (react_agent.ValueError
                               ($"No Action found in LLM response:"
                                ++ ["010"%char] ++ text)))).
      { unfold react_agent._stream_thought_action; rewrite Hf. fold text.
        now rewrite Hnil. }
      split; [now rewrite Hs|].
      intros tools fin loads n i. apply for_loop_done.
      unfold react_agent.body. now rewrite Hs.
    + intros Hne.
      destruct (last_opt (findall react_agent.action_regex text))
        as [gs|] eqn:E; [|now apply last_opt_nil in E].
      destruct (findall_last react_agent.action_regex action_regex_span
                  (List.length text) text gs (le_n _) E)
        as (before & matched & rest & Ht & Hre & Hm & Hs).
      destruct (action_regex_groups _ _ _ Hre) as (g1 & g2 & ->).
      exists before, matched, rest, g1, g2.
      repeat split; auto.
      unfold react_agent._stream_thought_action; rewrite Hf. fold text.
      now rewrite E.
Qed.

Lemma C6_witness :
  (exists before matched rest name input,
      $"Action: finish[4]" = before ++ matched ++ rest
      /\ react_agent.action_regex (matched ++ rest)
         = Some ([Some name; Some input], rest)
      /\ matched <> []
      /\ search react_agent.action_regex rest = None
      /\ snd (react_agent._stream_thought_action
                (fun _ => react_agent.mkReply [$"Action: finish[4]"] None) [])
         = Ok ($"Action: finish[4]", strip name, strip input))
  /\ fst (for_loop
            (react_agent.body (fun _ => react_agent.mkReply [$"hello"] None)
               [calculate] not_json loads_decode_error)
            (fun m => m) react_agent.max_iterations_error 5 0
            [HumanMessage $"query"])
     = mkRun [mkEvent Thought $"hello";
              mkEvent Error $"No Action found in LLM response:
hello"]
             [[HumanMessage $"query"]].
Proof.
  split.
  - apply (proj2 (proj2 (proj2 C6_parsers_return)
                    (fun _ => react_agent.mkReply [$"Action: finish[4]"] None)
                    [] eq_refl eq_refl)).
    vm_compute; discriminate.
  - rewrite (proj2 (proj1 (proj2 (proj2 C6_parsers_return)
                             (fun _ => react_agent.mkReply [$"hello"] None)
                             [HumanMessage $"query"] eq_refl eq_refl)
                      eq_refl)
               [calculate] not_json loads_decode_error 4 0%Z).
    reflexivity.
Defined.

(** ** One iteration of [OptimalReActAgent.stream] *)

Lemma parsed_name_truthy text thought name input :
  agents._parse_agent_output text = Ok (thought, Some name, input) ->
  truthy name = true.
Proof.
  intros H.
  destruct (parse_agent_output_cases text)
    as (t & [(fa & E)|[(n & i & E & Hn & _)|(E & _)]]);
    rewrite E in H; inversion H; subst; try reflexivity.
  destruct name; [congruence|reflexivity].
Qed.

(** C10: when the parsed step is the [finish] action with an empty argument,
    the final-answer event carries the whole raw output of the model for that
    turn (which is not empty), and the stream ends there. *)
Theorem C10_empty_finish_yields_raw_output :
  forall llm tools max_iterations sparse_reasoning n i history llm_output
         thought,
    llm history = Ok llm_output ->
    agents._parse_agent_output llm_output
    = Ok (thought, Some $"finish", Some []) ->
    exists pre,
      fst (for_loop (agents.body llm tools max_iterations sparse_reasoning)
             (fun h => h)
             (agents.max_iterations_error max_iterations) (S n) i history)
      = mkRun (pre ++ [mkEvent FinalAnswer llm_output]) [history]
      /\ no_terminal pre = true
      /\ llm_output <> [].
Proof.
  intros llm tools N sparse n i history llm_output thought Hl Hp.
  exists (mkEvent Info ($"--- Iteration " ++ str_of_Z i ++ $"/"
                        ++ str_of_Z N ++ $" ---")
          :: if opt_truthy thought
             then [mkEvent Thought (group_text thought)] else []).
  split; [|split].
  - rewrite (for_loop_done _ _ _ n i history
               ((mkEvent Info ($"--- Iteration " ++ str_of_Z i ++ $"/"
                               ++ str_of_Z N ++ $" ---")
                 :: if opt_truthy thought
                    then [mkEvent Thought (group_text thought)] else [])
                ++ [mkEvent FinalAnswer llm_output]) history);
      [reflexivity|].
    unfold agents.body, agents.iteration. rewrite Hl, Hp.
    rewrite str_eqb_refl. reflexivity.
  - destruct (opt_truthy thought); reflexivity.
  - intros ->. vm_compute in Hp. discriminate.
Qed.

Lemma C10_witness :
  exists pre,
    fst (for_loop (agents.body (fun _ => Ok $"Thought: done
Action: finish[]") [calculate] 7 false)
           (fun h => h) (agents.max_iterations_error 7) 7 1
           [SystemMessage $"system"; HumanMessage $"query"])
    = mkRun (pre ++ [mkEvent FinalAnswer $"Thought: done
Action: finish[]"]) [[SystemMessage $"system"; HumanMessage $"query"]]
    /\ no_terminal pre = true
    /\ $"Thought: done
Action: finish[]" <> [].
Proof.
  apply (C10_empty_finish_yields_raw_output
           (fun _ => Ok $"Thought: done
Action: finish[]") [calculate] 7 false 6 1
           [SystemMessage $"system"; HumanMessage $"query"]
           $"Thought: done
Action: finish[]" (Some $"done
Action: finish[]")).
  - reflexivity.
  - vm_compute; reflexivity.
Defined.

(** ** An unknown tool *)




(** ** The dense reasoning mode *)

(** C4, as the claim states it, fails: in dense mode a [finish] action
    without a thought (an action the registry resolves, and no reasoning)
    ends the stream with the final answer and no error event.  So does, for
    an action other than [finish], a step whose [Thought:] marker is followed
    by nothing: the thought is empty, not absent, no thought event is
    yielded and the step passes the check (the stream below ends in the
    error of the exhausted budget, not in the format violation). *)
Lemma C4_counterexample :
  agents._parse_agent_output $"Action: finish[4]"
  = Ok (None, Some $"finish", Some $"4")
  /\ agents.tools_map [calculate] $"finish" <> None
  /\ events (agents.stream (fun _ => Ok $"Action: finish[4]") [calculate] 7
               false $"system" $"query")
     = [mkEvent Info $"--- Iteration 1/7 ---"; mkEvent FinalAnswer $"4"]
  /\ agents._parse_agent_output $"Action: calculate[2+2]
Thought:"
     = Ok (Some [], Some $"calculate", Some $"2+2")
  /\ events (agents.stream (fun _ => Ok $"Action: calculate[2+2]
Thought:") [calculate] 1 false $"system" $"query")
     = [mkEvent Info $"--- Iteration 1/1 ---";
        mkEvent ActionInput $"Action: calculate[2+2]";
        mkEvent Observation $"4";
        agents.max_iterations_error 1].
Proof.
  split; [vm_compute; reflexivity|split]; [vm_compute; discriminate|].
  repeat split; vm_compute; reflexivity.
Qed.

(** C4 (amended): in dense mode, for an iteration on whose output the
    parser returns the step in question.  (a) A step with a thought (even an
    empty one) and no action ends the stream with the format-violation error
    event and yields no action event.  (b) A step with no thought at all and
    an action other than [finish] that the registry resolves and whose tool
    returns yields the action and its observation and then ends the stream
    with the format-violation error event.  (c) A step whose action is
    [finish] ends the stream with the final answer and no error event,
    whether it has a thought or not.  (d) A step with a thought, even an
    empty one, and an action other than [finish] whose tool returns is no
    violation: it yields no terminal event and the loop goes on. *)
Theorem C4_dense_format_violation :
  forall (n : nat) (i : Z) llm tools max_iterations history llm_output,
    llm history = Ok llm_output ->
    (forall thought,
        agents._parse_agent_output llm_output = Ok (Some thought, None, None) ->
        exists pre,
          fst (for_loop (agents.body llm tools max_iterations false)
                 (fun h => h) (agents.max_iterations_error max_iterations)
                 (S n) i history)
          = mkRun (pre ++ [agents.dense_error llm_output]) [history]
          /\ no_terminal pre = true
          /\ count_type ActionInput pre = 0)
    /\ (forall name input observation,
        agents._parse_agent_output llm_output
        = Ok (None, Some name, Some input) ->
        name <> $"finish" ->
        agents._execute_tool tools name input = Ok observation ->
        fst (for_loop (agents.body llm tools max_iterations false)
               (fun h => h) (agents.max_iterations_error max_iterations)
               (S n) i history)
        = mkRun [mkEvent Info ($"--- Iteration " ++ str_of_Z i ++ $"/"
                               ++ str_of_Z max_iterations ++ $" ---");
                 mkEvent ActionInput
                   ($"Action: " ++ name ++ $"[" ++ input ++ $"]");
                 mkEvent Observation observation;
                 agents.dense_error llm_output]
                [history])
    /\ (forall thought input,
        agents._parse_agent_output llm_output
        = Ok (thought, Some $"finish", Some input) ->
        exists pre,
          fst (for_loop (agents.body llm tools max_iterations false)
                 (fun h => h) (agents.max_iterations_error max_iterations)
                 (S n) i history)
          = mkRun (pre ++ [mkEvent FinalAnswer
                             (if truthy input then input else llm_output)])
                  [history]
          /\ no_terminal pre = true)
    /\ (forall thought name input observation,
        agents._parse_agent_output llm_output
        = Ok (Some thought, Some name, Some input) ->
        name <> $"finish" ->
        agents._execute_tool tools name input = Ok observation ->
        exists evs,
          agents.body llm tools max_iterations false i history
          = (evs,
             Next (history ++ [AIMessage llm_output;
                               HumanMessage ($"Observation: "
                                             ++ observation)]))
          /\ no_terminal evs = true
          /\ count_type Observation evs = 1).
Proof.
  intros n i llm tools N history llm_output Hl; split; [|split; [|split]].
  - intros thought Hp.
    exists (mkEvent Info ($"--- Iteration " ++ str_of_Z i ++ $"/"
                          ++ str_of_Z N ++ $" ---")
            :: if truthy thought then [mkEvent Thought thought] else []).
    split; [|split].
    + erewrite for_loop_done; [reflexivity|].
      unfold agents.body, agents.iteration. rewrite Hl, Hp. reflexivity.
    + destruct (truthy thought); reflexivity.
    + destruct (truthy thought); reflexivity.
  - intros name input observation Hp Hn He.
    erewrite for_loop_done; [reflexivity|].
    unfold agents.body, agents.iteration. rewrite Hl, Hp.
    rewrite (str_eqb_neq _ _ Hn), (parsed_name_truthy _ _ _ _ Hp), He.
    reflexivity.
  - intros thought input Hp.
    exists (mkEvent Info ($"--- Iteration " ++ str_of_Z i ++ $"/"
                          ++ str_of_Z N ++ $" ---")
            :: if opt_truthy thought
               then [mkEvent Thought (group_text thought)] else []).
    split.
    + erewrite for_loop_done; [reflexivity|].
      unfold agents.body, agents.iteration. rewrite Hl, Hp.
      rewrite str_eqb_refl. reflexivity.
    + destruct (opt_truthy thought); reflexivity.
  - intros thought name input observation Hp Hn He.
    eexists; split; [|split].
    + unfold agents.body, agents.iteration. rewrite Hl, Hp.
      rewrite (str_eqb_neq _ _ Hn), (parsed_name_truthy _ _ _ _ Hp), He.
      cbn. rewrite <- app_assoc. reflexivity.
    + destruct (truthy thought); reflexivity.
    + destruct (truthy thought); reflexivity.
Qed.

Lemma C4_witness :
  fst (for_loop
         (agents.body (fun _ => Ok $"Action: calculate[2+2]") [calculate] 7
            false)
         (fun h => h) (agents.max_iterations_error 7) 7 1
         [SystemMessage $"system"; HumanMessage $"query"])
  = mkRun [mkEvent Info $"--- Iteration 1/7 ---";
           mkEvent ActionInput $"Action: calculate[2+2]";
           mkEvent Observation $"4";
           agents.dense_error $"Action: calculate[2+2]"]
          [[SystemMessage $"system"; HumanMessage $"query"]]
  /\ exists pre,
      fst (for_loop
             (agents.body (fun _ => Ok $"Action: finish[4]") [calculate] 7
                false)
             (fun h => h) (agents.max_iterations_error 7) 7 1
             [SystemMessage $"system"; HumanMessage $"query"])
      = mkRun (pre ++ [mkEvent FinalAnswer
                         (if truthy $"4" then $"4"
                          else $"Action: finish[4]")])
              [[SystemMessage $"system"; HumanMessage $"query"]]
      /\ no_terminal pre = true.
Proof.
  split.
  - apply (proj1 (proj2 (C4_dense_format_violation 6 1
                    (fun _ => Ok $"Action: calculate[2+2]") [calculate] 7
                    [SystemMessage $"system"; HumanMessage $"query"]
                    $"Action: calculate[2+2]" eq_refl))
             $"calculate" $"2+2" $"4").
    + vm_compute; reflexivity.
    + vm_compute; discriminate.
    + vm_compute; reflexivity.
  - apply (proj1 (proj2 (proj2 (C4_dense_format_violation 6 1
                    (fun _ => Ok $"Action: finish[4]") [calculate] 7
                    [SystemMessage $"system"; HumanMessage $"query"]
                    $"Action: finish[4]" eq_refl)))
             None $"4").
    vm_compute; reflexivity.
Defined.

(** ** The conversation state across queries *)

(** C9, as the claim states it, fails on [react_agent.py]: the second query
    put to the same agent is sent to the model after the turns of the first
    one. *)
Lemma C9_counterexample :
  llm_calls
    (fst (react_agent.stream
            (fun _ => react_agent.mkReply [$"Action: finish[done]"] None)
            [] 5 not_json loads_decode_error
            (snd (react_agent.stream
                    (fun _ => react_agent.mkReply [$"Action: finish[done]"] None)
                    [] 5 not_json loads_decode_error
                    (react_agent.init $"system") $"first"))
            $"second"))
  = [[SystemMessage $"system"; HumanMessage $"first";
      AIMessage $"Action: finish[done]"; AIMessage $"done";
      HumanMessage $"second"]].
Proof. vm_compute. reflexivity. Qed.

(** C9 (amended): a [stream] call of the custom [ReActAgent] does not depend
    on the state earlier queries left in the agent, and with a positive
    budget the first context it sends to the model is the system instruction
    followed by the new query; the same holds of [OptimalReActAgent], whose
    history is local to the call.  In [react_agent.py], [stream] sends the
    messages kept from earlier queries followed by the new query; only
    [clear] brings the messages back to the system instruction. *)
Theorem C9_conversation_state_at_start :
  forall (max_iterations : Z) (system_prompt query : str),
    (0 < max_iterations)%Z ->
    (forall llm tools history_length self,
        custom_react_agent.stream llm tools max_iterations history_length
          system_prompt self query
        = custom_react_agent.stream llm tools max_iterations history_length
            system_prompt (custom_react_agent.mkAgent [] []) query
        /\ hd_error
             (llm_calls (fst (custom_react_agent.stream llm tools
                                max_iterations history_length system_prompt
                                self query)))
           = Some [SystemMessage system_prompt; HumanMessage query])
    /\ (forall llm tools sparse_reasoning,
        hd_error
          (llm_calls (agents.stream llm tools max_iterations sparse_reasoning
                        system_prompt query))
        = Some [SystemMessage system_prompt; HumanMessage query])
    /\ (forall llm tools finish_input loads_raises messages,
        hd_error
          (llm_calls (fst (react_agent.stream llm tools max_iterations
                             finish_input loads_raises messages query)))
        = Some (messages ++ [HumanMessage query])
        /\ react_agent.clear (SystemMessage system_prompt :: messages)
           = [SystemMessage system_prompt]).
Proof.
  intros N sys q HN.
  destruct (Z.to_nat N) as [|n] eqn:En; [lia|].
  split; [|split].
  - intros llm tools W self; split; [reflexivity|].
    unfold custom_react_agent.stream; rewrite En, for_loop_first_call.
    reflexivity.
  - intros llm tools sparse.
    unfold agents.stream; rewrite En, for_loop_first_call. reflexivity.
  - intros llm tools fin loads messages; split; [|reflexivity].
    unfold react_agent.stream; rewrite En, for_loop_first_call. reflexivity.
Qed.

Lemma C9_witness :
  hd_error
    (llm_calls (fst (custom_react_agent.stream
                       (fun _ => Ok $"Action: finish[done]") [calculate] 5 3
                       $"system"
                       (custom_react_agent.mkAgent
                          [HumanMessage $"first"; AIMessage $"old turn"]
                          [($"calculate", $"1")])
                       $"second")))
  = Some [SystemMessage $"system"; HumanMessage $"second"].
Proof.
  apply (proj1 (C9_conversation_state_at_start 5 $"system" $"second"
                  ltac:(lia))
           (fun _ => Ok $"Action: finish[done]") [calculate] 3
           (custom_react_agent.mkAgent
              [HumanMessage $"first"; AIMessage $"old turn"]
              [($"calculate", $"1")])).
Defined.

(** ** Parsing a trailing Thought/Action pair *)

Section SearchLiteral.
(** A pattern [re] that opens with the literal [p]. *)
Context (p : str) (re : anchored).
Hypothesis opens_with : forall s, drop_prefix p s = None -> re s = None.

(** It has no match in a text without the literal. *)
Lemma search_lit_absent :
  forall s pos, find p s = None -> search_from re pos s = None.
Proof.
  induction s as [|c t IH]; intros pos H; cbn [find search_from] in *;
    destruct (drop_prefix p _) eqn:E; try discriminate;
    rewrite (opens_with _ E); [reflexivity|].
  apply IH. destruct (find p t); [discriminate|reflexivity].
Qed.

(** It has no match before the first occurrence of the literal. *)
Lemma search_lit_skip :
  forall s n pos,
    find p s = Some n ->
    search_from re pos s = search_from re (pos + n) (skipn n s).
Proof.
  induction s as [|c t IH]; intros n pos H; cbn [find] in H.
  - destruct (drop_prefix p []); [|discriminate].
    inversion H; subst; cbn [skipn]; now rewrite Nat.add_0_r.
  - destruct (drop_prefix p (c :: t)) eqn:E.
    + inversion H; subst; cbn [skipn]; now rewrite Nat.add_0_r.
    + destruct (find p t) as [n'|] eqn:F; [|discriminate].
      inversion H; subst n. cbn [search_from skipn].
      rewrite (opens_with _ E).
      rewrite (IH n' (S pos) eq_refl). now rewrite Nat.add_succ_r.
Qed.
End SearchLiteral.



Lemma greedy1_intro {A} (p : ascii -> bool) (k : str -> str -> option A)
    run rest a :
  run <> [] -> forallb p run = true ->
  match rest with [] => true | c :: _ => negb (p c) end = true ->
  k run rest = Some a ->
  greedy1 p k (run ++ rest) = Some a.
Proof.
  destruct run as [|c run]; [congruence|]. intros _ Hr Hrest Hk.
  cbn [forallb] in Hr; apply andb_true_iff in Hr; destruct Hr as [Hc Hr].
  cbn [app greedy1]; rewrite Hc. now apply greedy_intro.
Qed.



Lemma lit_opens_with {A} (p : str) (k : str -> option A) s :
  drop_prefix p s = None -> lit p k s = None.
Proof. unfold lit; now intros ->. Qed.


(** *** Markers, groups and stripping *)

Lemma lazy_any_elim_min {A} (k : str -> str -> option A) :
  forall s acc a,
    lazy_any k acc s = Some a ->
    exists pre rest,
      s = pre ++ rest /\ k (acc ++ pre) rest = Some a
      /\ (forall p1 p2, pre = p1 ++ p2 -> p2 <> [] ->
                        k (acc ++ p1) (p2 ++ rest) = None).
Proof.
  induction s as [|c t IH]; intros acc a H; cbn [lazy_any] in H.
  - destruct (k acc []) eqn:E; [|discriminate]. inversion H; subst.
    exists [], []; cbn [app]; rewrite app_nil_r. repeat split; auto.
    intros p1 p2 Hp Hne. symmetry in Hp; apply app_eq_nil in Hp.
    destruct Hp; congruence.
  - destruct (k acc (c :: t)) eqn:E.
    + inversion H; subst. exists [], (c :: t); cbn [app]; rewrite app_nil_r.
      repeat split; auto.
      intros p1 p2 Hp Hne. symmetry in Hp; apply app_eq_nil in Hp.
      destruct Hp; congruence.
    + destruct (IH _ _ H) as (pre & rest & -> & Hk & Hmin).
      exists (c :: pre), rest. rewrite <- app_assoc in Hk.
      repeat split; auto.
      intros [|d p1] p2 Hp Hne; cbn [app] in *.
      * subst p2. now rewrite app_nil_r.
      * inversion Hp; subst d pre.
        specialize (Hmin p1 p2 eq_refl Hne).
        now rewrite <- app_assoc in Hmin.
Qed.

(** The argument group of the action pattern stops at the first closing
    bracket. *)
Lemma ACTION_REGEX_argument s gs rest :
  agents.ACTION_REGEX s = Some (gs, rest) ->
  exists g1 g2, gs = [Some g1; Some g2] /\ no_bracket g2 = true.
Proof.
  unfold agents.ACTION_REGEX; intros H.
  do 5 step_match H.
  apply lazy_any_elim_min in H as (g2 & r & _ & H & Hmin).
  cbn [app] in *. step_match H. inversion H; subst.
  eexists _, g2; split; [reflexivity|].
  unfold no_bracket; apply forallb_forall; intros c Hc.
  apply negb_true_iff. destruct (Ascii.eqb c "]") eqn:Ec; [|reflexivity].
  apply Ascii.eqb_eq in Ec; subst c.
  apply in_split in Hc as (p1 & p2 & ->).
  specialize (Hmin p1 ("]"%char :: p2) eq_refl ltac:(discriminate)).
  unfold lit in Hmin; cbn in Hmin. discriminate.
Qed.

Lemma lstrip_suffix (s : str) : exists run, s = run ++ lstrip s
  /\ forallb is_space run = true
  /\ match lstrip s with [] => true | c :: _ => negb (is_space c) end = true.
Proof.
  induction s as [|c t (run & Ht & Hr & Hh)]; [exists []; auto|].
  cbn [lstrip]. destruct (is_space c) eqn:Ec.
  - exists (c :: run); cbn [app forallb]; rewrite Ec, Hr, <- Ht; auto.
  - exists []; cbn [app forallb]; rewrite Ec; auto.
Qed.

Lemma lstrip_idem (s : str) : lstrip (lstrip s) = lstrip s.
Proof.
  induction s as [|c t IH]; [reflexivity|]. cbn [lstrip].
  destruct (is_space c) eqn:Ec; [exact IH|]. cbn [lstrip]; now rewrite Ec.
Qed.

Lemma strip_lstrip (s : str) : strip (lstrip s) = strip s.
Proof. unfold strip; now rewrite lstrip_idem. Qed.

Lemma forallb_lstrip (p : ascii -> bool) (s : str) :
  forallb p s = true -> forallb p (lstrip s) = true.
Proof.
  induction s as [|c t IH]; [reflexivity|]. cbn [lstrip forallb].
  intros H; apply andb_true_iff in H; destruct H as [Hc Ht].
  destruct (is_space c); [auto|]. cbn [forallb]; now rewrite Hc, Ht.
Qed.

Lemma forallb_rev {A} (p : A -> bool) (l : list A) :
  forallb p (rev l) = forallb p l.
Proof.
  induction l as [|a l IH]; [reflexivity|].
  cbn [rev forallb]. rewrite forallb_app, IH. cbn [forallb].
  rewrite andb_true_r. apply andb_comm.
Qed.

Lemma forallb_strip (p : ascii -> bool) (s : str) :
  forallb p s = true -> forallb p (strip s) = true.
Proof.
  intros H. unfold strip, rstrip. rewrite forallb_rev.
  apply forallb_lstrip. rewrite forallb_rev. now apply forallb_lstrip.
Qed.

Lemma drop_prefix_skipn (p : str) :
  forall s r, drop_prefix p s = Some r -> r = skipn (List.length p) s.
Proof.
  induction p as [|a p IH]; intros s r H; cbn [drop_prefix] in H.
  - now inversion H.
  - destruct s as [|b s]; [discriminate|].
    destruct (Ascii.eqb a b); [|discriminate]. cbn [List.length skipn]. auto.
Qed.

Lemma find_some (p : str) :
  forall s n,
    find p s = Some n ->
    drop_prefix p (skipn n s) = Some (skipn (n + List.length p) s).
Proof.
  induction s as [|c t IH]; intros n H; cbn [find] in H.
  - destruct (drop_prefix p []) eqn:E; [|discriminate]. inversion H; subst.
    cbn [skipn Nat.add]. rewrite E. f_equal. now apply drop_prefix_skipn.
  - destruct (drop_prefix p (c :: t)) eqn:E.
    + inversion H; subst. cbn [skipn Nat.add]. rewrite E. f_equal.
      now apply drop_prefix_skipn.
    + destruct (find p t) as [n'|]; [|discriminate]. inversion H; subst n.
      cbn [skipn Nat.add]. now apply IH.
Qed.

(** A pattern made of a marker, blanks and a group that takes the rest. *)
Lemma marker_pattern_result (p : str) s r :
  drop_prefix p s = Some r ->
  lit p (greedy is_space (fun _ =>
           greedy_any (fun g1 rest => Some ([Some g1], rest))) []) s
  = Some ([Some (lstrip r)], []).
Proof.
  intros H. unfold lit; rewrite H.
  destruct (lstrip_suffix r) as (run & Hr & Hrun & Hh).
  rewrite Hr at 1. apply greedy_intro; [exact Hrun|exact Hh|].
  unfold greedy_any. rewrite <- (app_nil_r (lstrip r)) at 1.
  apply greedy_intro; [|reflexivity|reflexivity].
  apply forallb_forall; reflexivity.
Qed.

Lemma search_marker_pattern (p : str) (text : str) :
  let re := lit p (greedy is_space (fun _ =>
                     greedy_any (fun g1 rest => Some ([Some g1], rest))) []) in
  match find p text with
  | Some n =>
      exists m, search re text = Some m
                /\ group_strip m 1
                   = Ok (strip (skipn (n + List.length p) text))
  | None => search re text = None
  end.
Proof.
  intros re. destruct (find p text) as [n|] eqn:F.
  - pose proof (find_some p text n F) as Hd.
    pose proof (marker_pattern_result p _ _ Hd) as Hre. fold re in Hre.
    unfold search.
    rewrite (search_lit_skip p re (fun s => lit_opens_with _ _ s) text n 0 F).
    rewrite <- (app_nil_l (skipn n text)).
    rewrite (search_from_intro re [] _ _ _ _
               ltac:(intros p1 p2 E Hp2; symmetry in E;
                     apply app_eq_nil in E; destruct E; congruence) Hre).
    eexists; split; [reflexivity|].
    unfold group_strip; cbn. now rewrite strip_lstrip.
  - apply (search_lit_absent p re (fun s => lit_opens_with _ _ s)); exact F.
Qed.

Lemma lstrip_snoc_nonspace (l : str) (c : ascii) :
  is_space c = false -> exists u, lstrip (l ++ [c]) = u ++ [c].
Proof.
  intros Hc; induction l as [|a l [u IH]]; cbn [app lstrip].
  - rewrite Hc; now exists [].
  - destruct (is_space a); [eauto|]. now exists (a :: l).
Qed.

Lemma rstrip_cons_nonspace (c : ascii) (t : str) :
  is_space c = false -> exists t', rstrip (c :: t) = c :: t'.
Proof.
  intros Hc; unfold rstrip; cbn [rev].
  destruct (lstrip_snoc_nonspace (rev t) c Hc) as [u ->].
  rewrite rev_app_distr; cbn. eauto.
Qed.

Lemma rstrip_idem (s : str) : rstrip (rstrip s) = rstrip s.
Proof. unfold rstrip; now rewrite rev_involutive, lstrip_idem. Qed.

(** Stripping leaves nothing to strip. *)
Lemma strip_idem (s : str) : strip (strip s) = strip s.
Proof.
  unfold strip.
  destruct (lstrip_suffix s) as (_ & _ & _ & Hh).
  destruct (lstrip s) as [|c t] eqn:E; [reflexivity|].
  apply negb_true_iff in Hh.
  destruct (rstrip_cons_nonspace c t Hh) as [t' Ht'].
  rewrite Ht' at 1. cbn [lstrip]; rewrite Hh, <- Ht'. apply rstrip_idem.
Qed.

(** *** The exact pattern of the custom agent on a trailing pair *)



Section SearchLiteralCi.
(** A pattern [re] that opens with the literal [p], ignoring case. *)
Context (p : str) (re : anchored).
Hypothesis opens_with : forall s, drop_prefix_ci p s = None -> re s = None.

End SearchLiteralCi.







(** *** How the loops take a parsed action *)






(** ** The action-anywhere fallback *)

(** C3: on a text with two actions and no exact trailing Thought/Action
    pattern, the fallback of [_parse_action] in [custom_react_agent.py]
    (and the action pattern of [agents.py]) returns the first action,
    [search[foo]], where the claim asks for the last, [calculate[2+2]];
    [react_agent.py], which takes the last element of [findall], returns the
    last one on the same text. *)
Theorem C3_fallback_returns_first_action :
  search custom_react_agent.pattern_perfect
    $"Action: search[foo]
Action: calculate[2+2]" = None
  /\ (exists full_text,
         custom_react_agent._parse_action
           $"Action: search[foo]
Action: calculate[2+2]"
         = Ok (Some (full_text, $"search", $"foo")))
  /\ agents._parse_agent_output
       $"Action: search[foo]
Action: calculate[2+2]"
     = Ok (None, Some $"search", Some $"foo")
  /\ snd (react_agent._stream_thought_action
            (fun _ => react_agent.mkReply
                        [$"Action: search[foo]
Action: calculate[2+2]"] None) [])
     = Ok ($"Action: search[foo]
Action: calculate[2+2]", $"calculate", $"2+2").
Proof.
  split; [vm_compute; reflexivity|].
  split; [eexists; vm_compute; reflexivity|].
  split; vm_compute; reflexivity.
Qed.

(** * Further properties of the agents *)

(** ** The loop and the model *)

Section ForLoopCalls.
Context {St : Type}.
Variable body : Z -> St -> list Event * Flow St.
Variable ctx : St -> list BaseMessage.
Variable exhausted : Event.

(** The loop calls the model at most once for each iteration it is given. *)
Lemma for_loop_calls_le (n : nat) :
  forall i st,
    List.length (llm_calls (fst (for_loop body ctx exhausted n i st))) <= n.
Proof.
  induction n as [|n IH]; intros i st; cbn [for_loop]; [cbn; lia|].
  destruct (body i st) as [evs [st'|st']]; [|cbn; lia].
  specialize (IH (i + 1)%Z st').
  destruct (for_loop body ctx exhausted n (i + 1) st') as [r st''].
  cbn [fst llm_calls List.length] in *. lia.
Qed.

(** A relation that every continuing iteration keeps between the state it
    starts from and the state it leaves. *)
Variable R : St -> St -> Prop.
Hypothesis body_step :
  forall i st evs st', body i st = (evs, Next st') -> R st st'.

(** Each call of the model but the first is made on the state that the
    iteration before it left. *)
Lemma for_loop_calls_chain (n : nat) :
  forall i st,
    exists sts,
      llm_calls (fst (for_loop body ctx exhausted n i st)) = map ctx sts
      /\ chain R sts
      /\ (sts = [] \/ hd_error sts = Some st).
Proof.
  induction n as [|n IH]; intros i st; cbn [for_loop].
  - exists []; cbn; auto.
  - destruct (body i st) as [evs [st'|st']] eqn:E.
    + destruct (IH (i + 1)%Z st') as (sts & Hc & Hch & Hhd).
      destruct (for_loop body ctx exhausted n (i + 1) st') as [r st''].
      cbn [fst llm_calls] in *. exists (st :: sts). rewrite Hc.
      repeat split; [|now right].
      destruct sts as [|b sts]; [exact I|]. cbn [chain]; split; [|exact Hch].
      destruct Hhd as [Hhd|Hhd]; [discriminate|]. inversion Hhd; subst b.
      eapply body_step; eauto.
    + exists [st]; cbn; auto.
Qed.

(** When every pass through the body yields one event of type [t] and the
    closing event is of another type, the stream holds one such event for
    each call of the model. *)
Lemma for_loop_count_per_call (t : EventType) :
  (forall i st evs fl, body i st = (evs, fl) -> count_type t evs = 1) ->
  count_type t [exhausted] = 0 ->
  forall n i st,
    count_type t (events (fst (for_loop body ctx exhausted n i st)))
    = List.length (llm_calls (fst (for_loop body ctx exhausted n i st))).
Proof.
  intros Hb He; induction n as [|n IH]; intros i st; cbn [for_loop];
    [exact He|].
  destruct (body i st) as [evs [st'|st']] eqn:E.
  - specialize (IH (i + 1)%Z st').
    destruct (for_loop body ctx exhausted n (i + 1) st') as [r st''].
    cbn [fst events llm_calls List.length] in *.
    now rewrite count_type_app, (Hb _ _ _ _ E), IH.
  - cbn [fst events llm_calls List.length]. now rewrite (Hb _ _ _ _ E).
Qed.

End ForLoopCalls.

Section AgentsHistory.
Import agents.
Variable llm : list BaseMessage -> Exc str.
Variable tools : list BaseTool.
Variable max_iterations : Z.
Variable sparse_reasoning : bool.

(** An iteration that goes on to the next one has appended to the history. *)
Lemma iteration_extends_history i history evs history' :
  iteration llm tools max_iterations sparse_reasoning i history
  = (evs, Ok (Continue history')) ->
  exists ext, history' = history ++ ext /\ ext <> [].
Proof.
  unfold iteration, format_check.
  destruct (llm history) as [llm_output|e]; [|discriminate].
  destruct (_parse_agent_output llm_output) as [[[thought name] input]|e];
    [|discriminate].
  destruct name as [name|];
    [destruct (str_eqb name $"finish"); [discriminate|];
     destruct (truthy name), input as [input|];
     try destruct (_execute_tool tools name input) as [observation|e];
     try discriminate|];
    destruct sparse_reasoning, thought as [thought|];
    cbn; intros H; inversion H;
    try (eexists; split; [reflexivity|discriminate]);
    try (eexists; split; [symmetry; apply app_assoc|discriminate]).
Qed.

(** Every pass through the loop body announces itself with exactly one info
    event. *)
Lemma iteration_one_info i history evs out :
  iteration llm tools max_iterations sparse_reasoning i history = (evs, out) ->
  count_type Info evs = 1.
Proof.
  unfold iteration, format_check.
  destruct (llm history) as [llm_output|e];
    [|intros H; inversion H; reflexivity].
  destruct (_parse_agent_output llm_output) as [[[thought name] input]|e];
    [|intros H; inversion H; reflexivity].
  destruct (opt_truthy thought).
  all: destruct name as [name|];
    [destruct (str_eqb name $"finish");
     [intros H; inversion H; reflexivity|];
     destruct (truthy name), input as [input|];
     try destruct (_execute_tool tools name input) as [observation|e]|];
    destruct sparse_reasoning, thought as [thought|];
    cbn; intros H; inversion H; reflexivity.
Qed.

End AgentsHistory.

Lemma map_id_eq {A} (l : list A) : map (fun x => x) l = l.
Proof. induction l; [reflexivity|cbn; congruence]. Qed.

(** X1: [OptimalReActAgent.stream] calls the model at most [max_iterations]
    times; the first context it sends is the system prompt followed by the
    user input; every later context is the one before it with messages
    appended (so no context is sent twice); and every call is announced by
    exactly one info event. *)
Theorem agents_stream_contexts_grow :
  forall llm tools max_iterations sparse_reasoning system_prompt user_input,
    let run := agents.stream llm tools max_iterations sparse_reasoning
                 system_prompt user_input in
    List.length (llm_calls run) <= Z.to_nat max_iterations
    /\ (llm_calls run = []
        \/ hd_error (llm_calls run)
           = Some [SystemMessage system_prompt; HumanMessage user_input])
    /\ chain extends (llm_calls run)
    /\ count_type Info (events run) = List.length (llm_calls run).
Proof.
  intros llm tools N sparse sys q run. subst run. unfold agents.stream.
  split; [apply for_loop_calls_le|].
  destruct (for_loop_calls_chain (agents.body llm tools N sparse)
              (fun h => h) (agents.max_iterations_error N) extends)
    with (n := Z.to_nat N) (i := 1%Z)
         (st := [SystemMessage sys; HumanMessage q])
    as (sts & Hc & Hch & Hhd).
  { intros i st evs st'. unfold agents.body.
    destruct (agents.iteration llm tools N sparse i st) as [evs0 out] eqn:E.
    destruct out as [[|h]|e]; intros H; inversion H; subst.
    exact (iteration_extends_history _ _ _ _ _ _ _ _ E). }
  rewrite map_id_eq in Hc. rewrite Hc.
  split; [exact Hhd|]. split; [exact Hch|].
  rewrite <- Hc. apply for_loop_count_per_call; [|reflexivity].
  intros i st evs fl. unfold agents.body.
  destruct (agents.iteration llm tools N sparse i st) as [evs0 out] eqn:E.
  pose proof (iteration_one_info _ _ _ _ _ _ _ _ E) as H1.
  destruct out as [[|h]|e]; intros H; inversion H; subst; try exact H1.
  rewrite count_type_app, H1. unfold agents.handler.
  destruct (str_eqb _ _); [reflexivity|].
  destruct (str_eqb _ _); reflexivity.
Qed.

(** ** [invoke] and [async_invoke] of [OptimalReActAgent] *)





(** ** What [_parse_agent_output] extracts *)

(** X3: what [_parse_agent_output] returns on any ASCII text.  The thought
    is what follows the first [Thought:] marker up to the end of the text,
    stripped (so it takes in an action written after it), and is absent when
    the text has no such marker.  When the text has a [Final Answer:] marker
    the action is [finish] with what follows the first such marker,
    stripped.  Otherwise there is no action, or the action name is a
    non-empty run of word characters and the argument holds no closing
    bracket and no surrounding whitespace. *)
Theorem parse_agent_output_extracts :
  forall text : str,
    ascii_text text = true ->
    exists name input,
      agents._parse_agent_output text
      = Ok (rest_after $"Thought:" text, name, input)
      /\ match rest_after $"Final Answer:" text with
         | Some final_answer =>
             name = Some $"finish" /\ input = Some final_answer
         | None =>
             (name = None /\ input = None)
             \/ (exists n i,
                    name = Some n /\ input = Some i
                    /\ n <> [] /\ forallb is_word n = true
                    /\ no_bracket i = true /\ strip i = i)
         end.
Proof.
  intros text _. unfold agents._parse_agent_output, rest_after.
  pose proof (search_marker_pattern $"Thought:" text) as HT.
  pose proof (search_marker_pattern $"Final Answer:" text) as HF.
  cbv zeta in HT, HF.
  change (lit $"Thought:" _) with agents.THOUGHT_REGEX in HT.
  change (lit $"Final Answer:" _) with agents.FINAL_ANSWER_REGEX in HF.
  destruct (find $"Thought:" text) as [nt|];
    [destruct HT as (mt & -> & ->)|rewrite HT]; cbn [bind option_map].
  all: destruct (find $"Final Answer:" text) as [nf|];
    [destruct HF as (mf & -> & ->); cbn [bind option_map]; eauto|].
  all: rewrite HF; cbn [option_map].
  all: destruct (search agents.ACTION_REGEX text) as [m|] eqn:EA;
    [|eexists _, _; split; [reflexivity|now left]].
  all: pose proof (search_ACTION_REGEX _ _ EA) as (g1 & g2 & Hg & Hne & Hw).
  all: apply (search_groups agents.ACTION_REGEX
                (fun gs => exists g1 g2, gs = [Some g1; Some g2]
                                         /\ no_bracket g2 = true))
         in EA as (g1' & g2' & Hg' & Hb);
    [|intros; eapply ACTION_REGEX_argument; eauto].
  all: rewrite Hg in Hg'; inversion Hg'; subst g1' g2'.
  all: rewrite (group_strip_ok m 0 g1) by now rewrite Hg.
  all: rewrite (group_strip_ok m 1 g2) by now rewrite Hg.
  all: cbn [bind]; eexists _, _; split; [reflexivity|right].
  all: exists (strip g1), (strip g2); rewrite (strip_word g1 Hw).
  all: repeat split; auto; [now apply forallb_strip|apply strip_idem].
Qed.

Lemma parse_agent_output_extracts_witness :
  exists name input,
    agents._parse_agent_output $"Thought: add
Action: calculate[ 1 ]"
    = Ok (rest_after $"Thought:" $"Thought: add
Action: calculate[ 1 ]", name, input)
    /\ match rest_after $"Final Answer:" $"Thought: add
Action: calculate[ 1 ]" with
       | Some final_answer =>
           name = Some $"finish" /\ input = Some final_answer
       | None =>
           (name = None /\ input = None)
           \/ (exists n i,
                  name = Some n /\ input = Some i
                  /\ n <> [] /\ forallb is_word n = true
                  /\ no_bracket i = true /\ strip i = i)
       end.
Proof.
  apply (parse_agent_output_extracts $"Thought: add
Action: calculate[ 1 ]").
  reflexivity.
Defined.

(** ** The tool registry and dispatcher of [OptimalReActAgent] *)






(** ** The two reasoning modes on single steps *)

(** X5: in sparse mode a step that holds a thought and no action is accepted:
    the stream yields the info event and the thought, dispatches no tool, and
    goes on to the next iteration with the model's reply appended to the
    history.  A step that holds neither a thought nor an action ends the
    stream with the sparse format error. *)
Theorem agents_sparse_steps :
  forall llm tools max_iterations (i : Z) history llm_output,
    llm history = Ok llm_output ->
    (forall thought,
        agents._parse_agent_output llm_output = Ok (Some thought, None, None) ->
        agents.body llm tools max_iterations true i history
        = (mkEvent Info ($"--- Iteration " ++ str_of_Z i ++ $"/"
                         ++ str_of_Z max_iterations ++ $" ---")
           :: (if truthy thought then [mkEvent Thought thought] else []),
           Next (history ++ [AIMessage llm_output])))
    /\ (agents._parse_agent_output llm_output = Ok (None, None, None) ->
        agents.body llm tools max_iterations true i history
        = ([mkEvent Info ($"--- Iteration " ++ str_of_Z i ++ $"/"
                          ++ str_of_Z max_iterations ++ $" ---");
            agents.sparse_error llm_output],
           Done history)).
Proof.
  intros llm tools N i history llm_output Hl; split.
  - intros thought Hp. unfold agents.body, agents.iteration.
    rewrite Hl, Hp. cbn. destruct (truthy thought); cbn;
      now rewrite ?app_nil_r.
  - intros Hp. unfold agents.body, agents.iteration.
    rewrite Hl, Hp. reflexivity.
Qed.

Lemma agents_sparse_steps_witness :
  agents.body (fun _ => Ok $"Thought: plan first") [calculate] 7 true 1
    [SystemMessage $"system"; HumanMessage $"query"]
  = (mkEvent Info ($"--- Iteration " ++ str_of_Z 1 ++ $"/"
                   ++ str_of_Z 7 ++ $" ---")
     :: (if truthy $"plan first"
         then [mkEvent Thought $"plan first"] else []),
     Next ([SystemMessage $"system"; HumanMessage $"query"]
           ++ [AIMessage $"Thought: plan first"])).
Proof.
  apply (proj1 (agents_sparse_steps (fun _ => Ok $"Thought: plan first")
                  [calculate] 7 1
                  [SystemMessage $"system"; HumanMessage $"query"]
                  $"Thought: plan first" eq_refl)).
  vm_compute; reflexivity.
Defined.

(** X6: a step that holds a thought and an action other than [finish] whose
    tool returns goes on to the next iteration in both modes, with the same
    events and the same history: the model's reply and then the observation
    are appended (sparse mode appends the reply before parsing, dense mode
    after the tool has run). *)
Theorem agents_executed_step_same_in_both_modes :
  forall llm tools max_iterations sparse_reasoning (i : Z) history llm_output
         thought name input observation,
    llm history = Ok llm_output ->
    agents._parse_agent_output llm_output
    = Ok (Some thought, Some name, Some input) ->
    name <> $"finish" ->
    agents._execute_tool tools name input = Ok observation ->
    agents.body llm tools max_iterations sparse_reasoning i history
    = ((mkEvent Info ($"--- Iteration " ++ str_of_Z i ++ $"/"
                      ++ str_of_Z max_iterations ++ $" ---")
        :: (if truthy thought then [mkEvent Thought thought] else []))
       ++ [mkEvent ActionInput ($"Action: " ++ name ++ $"[" ++ input ++ $"]");
           mkEvent Observation observation],
       Next (history ++ [AIMessage llm_output;
                         HumanMessage ($"Observation: " ++ observation)])).
Proof.
  intros llm tools N sparse i history llm_output thought name input obs
         Hl Hp Hn He.
  unfold agents.body, agents.iteration. rewrite Hl, Hp.
  rewrite (str_eqb_neq _ _ Hn), (parsed_name_truthy _ _ _ _ Hp), He.
  unfold agents.format_check.
  destruct sparse; cbn; destruct (truthy thought); cbn;
    rewrite <- ?app_assoc; reflexivity.
Qed.

Lemma agents_executed_step_witness :
  agents.body (fun _ => Ok $"Thought: add
Action: calculate[2+2]") [calculate] 7 true 1
    [SystemMessage $"system"; HumanMessage $"query"]
  = ((mkEvent Info ($"--- Iteration " ++ str_of_Z 1 ++ $"/"
                    ++ str_of_Z 7 ++ $" ---")
      :: (if truthy $"add
Action: calculate[2+2]"
          then [mkEvent Thought $"add
Action: calculate[2+2]"] else []))
     ++ [mkEvent ActionInput
           ($"Action: " ++ $"calculate" ++ $"[" ++ $"2+2" ++ $"]");
         mkEvent Observation $"4"],
     Next ([SystemMessage $"system"; HumanMessage $"query"]
           ++ [AIMessage $"Thought: add
Action: calculate[2+2]";
               HumanMessage ($"Observation: " ++ $"4")])).
Proof.
  apply (agents_executed_step_same_in_both_modes
           (fun _ => Ok $"Thought: add
Action: calculate[2+2]") [calculate] 7 true 1
           [SystemMessage $"system"; HumanMessage $"query"]
           $"Thought: add
Action: calculate[2+2]" $"add
Action: calculate[2+2]" $"calculate" $"2+2" $"4").
  - reflexivity.
  - vm_compute; reflexivity.
  - vm_compute; discriminate.
  - vm_compute; reflexivity.
Defined.

(** ** The window of the loop guard *)





(** ** Replies without an action in the custom agent *)

(** X8: when the first reply of the model is ASCII text that holds no action
    name, the custom agent does not fail on it: if the reply is not blank it
    forces a [finish] and the stream is one synthesized thought/action event
    followed by the final answer, which is the reply stripped; only a blank
    reply yields the error about the missing action.  The model is called
    once. *)
Theorem custom_reply_without_action :
  forall llm tools max_iterations history_length system_prompt self query
         reply,
    (0 < max_iterations)%Z ->
    llm [SystemMessage system_prompt; HumanMessage query] = Ok reply ->
    ascii_text reply = true ->
    no_action_name reply = true ->
    let run := fst (custom_react_agent.stream llm tools max_iterations
                      history_length system_prompt self query) in
    llm_calls run = [[SystemMessage system_prompt; HumanMessage query]]
    /\ if truthy (strip reply)
       then exists synthetic,
              events run = [mkEvent ThoughtAction synthetic;
                            mkEvent FinalAnswer (strip reply)]
       else events run = [custom_react_agent.no_action_error].
Proof.
  intros llm tools N W sys self q reply HN Hl _ Hp run. subst run.
  unfold custom_react_agent.stream.
  destruct (Z.to_nat N) as [|n] eqn:En; [lia|].
  unfold no_action_name in Hp.
  assert (Hb : exists evs st',
             custom_react_agent.body llm tools W sys 1
               (custom_react_agent.reset self q) = (evs, Done st')
             /\ if truthy (strip reply)
                then exists synthetic,
                       evs = [mkEvent ThoughtAction synthetic;
                              mkEvent FinalAnswer (strip reply)]
                else evs = [custom_react_agent.no_action_error]).
  { unfold custom_react_agent.body, custom_react_agent._stream_thought_action.
    cbn [custom_react_agent.reset custom_react_agent.messages app
         custom_react_agent.action_history].
    change (custom_react_agent.prompt_messages sys [HumanMessage q])
      with [SystemMessage sys; HumanMessage q].
    rewrite Hl.
    destruct (custom_react_agent._parse_action reply)
      as [[[[ft name] input]|]|e]; [| |discriminate].
    - destruct (truthy name); [discriminate|].
      change (custom_react_agent.last_is_tool [HumanMessage q]) with false.
      rewrite orb_false_r.
      destruct (truthy (strip reply)); [|eauto].
      cbn. eexists _, _; split; [reflexivity|eauto].
    - change (custom_react_agent.last_is_tool [HumanMessage q]) with false.
      rewrite orb_false_r.
      destruct (truthy (strip reply)); [|eauto].
      cbn. eexists _, _; split; [reflexivity|eauto]. }
  destruct Hb as (evs & st' & Hb & Hev).
  rewrite (for_loop_done _ _ _ n 1%Z _ evs st' Hb). cbn [fst events llm_calls].
  split; [reflexivity|exact Hev].
Qed.

Lemma custom_reply_without_action_witness :
  llm_calls
    (fst (custom_react_agent.stream (fun _ => Ok $" Hello there ")
            [calculate] 5 3 $"system" (custom_react_agent.mkAgent [] [])
            $"hi"))
  = [[SystemMessage $"system"; HumanMessage $"hi"]]
  /\ if truthy (strip $" Hello there ")
     then exists synthetic,
         events
           (fst (custom_react_agent.stream (fun _ => Ok $" Hello there ")
                   [calculate] 5 3 $"system"
                   (custom_react_agent.mkAgent [] []) $"hi"))
         = [mkEvent ThoughtAction synthetic;
            mkEvent FinalAnswer (strip $" Hello there ")]
     else events
            (fst (custom_react_agent.stream (fun _ => Ok $" Hello there ")
                    [calculate] 5 3 $"system"
                    (custom_react_agent.mkAgent [] []) $"hi"))
          = [custom_react_agent.no_action_error].
Proof.
  apply (custom_reply_without_action (fun _ => Ok $" Hello there ")
           [calculate] 5 3 $"system" (custom_react_agent.mkAgent [] [])
           $"hi" $" Hello there ").
  - lia.
  - reflexivity.
  - reflexivity.
  - vm_compute; reflexivity.
Defined.

(** ** The tools *)

Lemma forallb_filter_same {A} (p : A -> bool) (l : list A) :
  forallb p (filter p l) = true.
Proof.
  induction l as [|a l IH]; [reflexivity|]. cbn [filter].
  destruct (p a) eqn:E; [cbn [forallb]; now rewrite E|exact IH].
Qed.

(** X9: [calculate] hands [eval] nothing but the allowed characters: its
    result depends on [eval] only through texts that are not blank and are
    made of digits, the point, parentheses, the four operators and the space
    (whatever else the expression holds is dropped before evaluation, and an
    expression with nothing left is refused without evaluation). *)
Theorem calculate_evaluates_only_sanitized :
  forall (eval1 eval2 : str -> Exc str) (expression : str),
    (forall s, forallb tools.is_allowed s = true ->
               truthy (strip s) = true -> eval1 s = eval2 s) ->
    tools.calculate eval1 expression = tools.calculate eval2 expression.
Proof.
  intros eval1 eval2 expression H. unfold tools.calculate.
  destruct (truthy (strip (filter tools.is_allowed expression))) eqn:E;
    [|reflexivity].
  cbn [negb]. now rewrite (H _ (forallb_filter_same _ _) E).
Qed.

Lemma calculate_evaluates_only_sanitized_witness :
  tools.calculate (fun _ => Ok $"4") $"__import__('os') 2+2"
  = tools.calculate
      (fun s => if forallb tools.is_allowed s then Ok $"4"
                else Raise (mkExn $"NameError" $"refused"))
      $"__import__('os') 2+2".
Proof.
  apply (calculate_evaluates_only_sanitized
           (fun _ => Ok $"4")
           (fun s => if forallb tools.is_allowed s then Ok $"4"
                     else Raise (mkExn $"NameError" $"refused"))
           $"__import__('os') 2+2").
  intros s Hs _. now rewrite Hs.
Defined.

Lemma last_opt_snoc {A} (l : list A) (x : A) : last_opt (l ++ [x]) = Some x.
Proof. unfold last_opt; now rewrite rev_app_distr. Qed.

Lemma strip_newline_cons (s : str) : strip ("010"%char :: s) = strip s.
Proof. reflexivity. Qed.

(** X10: [run_shell_command] and the repair of the custom agent.  After a
    command that exits with 0 and prints ASCII text to its standard output
    (and only ASCII text to its standard error), the observation is taken as
    a success: the next prompt ends with the critical instruction, and if
    the model then replies with ASCII text without an action name, the agent
    forces a [finish] whose answer is what follows the [STDOUT] marker of
    the observation, stripped: the standard output, and with it the [STDERR]
    section when the command also wrote to its standard error. *)
Theorem shell_success_is_repaired_from_stdout :
  forall llm system_prompt subprocess_run command stdout stderr
         earlier tool_call_id name reply,
    subprocess_run command = tools.Completed stdout stderr ->
    ascii_text stdout = true ->
    ascii_text stderr = true ->
    ascii_text reply = true ->
    truthy stdout = true ->
    let observation := tools.run_shell_command subprocess_run command in
    let messages := earlier ++ [ToolMessage observation tool_call_id name] in
    llm (custom_react_agent.prompt_messages system_prompt messages)
    = Ok reply ->
    no_action_name reply = true ->
    custom_react_agent.prompt_messages system_prompt messages
    = [SystemMessage system_prompt] ++ messages
      ++ [HumanMessage custom_react_agent.critical_instruction]
    /\ exists synthetic,
        custom_react_agent._stream_thought_action llm system_prompt messages
        = ([mkEvent ThoughtAction synthetic],
           Ok (Some (synthetic, $"finish",
                     strip (stdout
                            ++ if truthy stderr
                               then ["010"%char] ++ $"[STDERR]:"
                                    ++ ["010"%char] ++ stderr
                               else [])))).
Proof.
  intros llm sys run command stdout stderr earlier id name reply
         Hrun _ _ _ Hout observation messages Hl Hp.
  assert (Hobs : observation
                 = $"SUCCESS:" ++ ["010"%char] ++ $"[STDOUT]:"
                   ++ ["010"%char]
                   ++ (stdout ++ if truthy stderr
                                 then ["010"%char] ++ $"[STDERR]:"
                                      ++ ["010"%char] ++ stderr
                                 else [])).
  { subst observation. unfold tools.run_shell_command. rewrite Hrun, Hout.
    destruct (truthy stderr); cbn [andb]; [reflexivity|].
    now rewrite app_nil_r. }
  clearbody observation. subst messages.
  set (out := stdout ++ if truthy stderr
                        then ["010"%char] ++ $"[STDERR]:" ++ ["010"%char]
                             ++ stderr
                        else []) in *.
  subst observation.
  set (observation := $"SUCCESS:" ++ ["010"%char] ++ $"[STDOUT]:"
                      ++ ["010"%char] ++ out) in *.
  set (messages := earlier ++ [ToolMessage observation id name]) in *.
  assert (Hsucc : custom_react_agent.last_is_success messages = true).
  { unfold custom_react_agent.last_is_success. subst messages.
    rewrite last_opt_snoc. reflexivity. }
  assert (Htool : custom_react_agent.last_is_tool messages = true).
  { unfold custom_react_agent.last_is_tool. subst messages.
    now rewrite last_opt_snoc. }
  split.
  { unfold custom_react_agent.prompt_messages. now rewrite Hsucc. }
  unfold custom_react_agent._stream_thought_action. rewrite Hl.
  unfold no_action_name in Hp.
  assert (Hrep : exists synthetic,
             custom_react_agent.repair messages reply
             = Ok (synthetic, $"finish", strip out)).
  { unfold custom_react_agent.repair. rewrite Hsucc.
    unfold messages at 1. rewrite last_opt_snoc. cbn [msg_content].
    pose proof (search_marker_pattern $"[STDOUT]:" observation) as HS.
    cbv zeta in HS.
    change (lit $"[STDOUT]:" _) with custom_react_agent.stdout_pattern in HS.
    change (find $"[STDOUT]:" observation) with (Some 9) in HS.
    destruct HS as (m & -> & Hg). rewrite Hg. cbn [bind].
    eexists; reflexivity. }
  destruct Hrep as [synthetic Hrep].
  exists synthetic. rewrite Hrep, Htool, orb_true_r.
  destruct (custom_react_agent._parse_action reply)
    as [[[[ft n] inp]|]|e]; [| |discriminate].
  - destruct (truthy n); [discriminate|reflexivity].
  - reflexivity.
Qed.

Lemma shell_success_is_repaired_witness :
  custom_react_agent.prompt_messages $"system"
    ([HumanMessage $"list"]
     ++ [ToolMessage
           (tools.run_shell_command
              (fun _ => tools.Completed $"a.txt
" $"") $"ls")
           $"call_run_shell_command_1" $"run_shell_command"])
  = [SystemMessage $"system"]
    ++ ([HumanMessage $"list"]
        ++ [ToolMessage
              (tools.run_shell_command
                 (fun _ => tools.Completed $"a.txt
" $"") $"ls")
              $"call_run_shell_command_1" $"run_shell_command"])
    ++ [HumanMessage custom_react_agent.critical_instruction]
  /\ exists synthetic,
      custom_react_agent._stream_thought_action
        (fun _ => Ok $"The file is there.") $"system"
        ([HumanMessage $"list"]
         ++ [ToolMessage
               (tools.run_shell_command
                  (fun _ => tools.Completed $"a.txt
" $"") $"ls")
               $"call_run_shell_command_1" $"run_shell_command"])
      = ([mkEvent ThoughtAction synthetic],
         Ok (Some (synthetic, $"finish",
                   strip ($"a.txt
" ++ if truthy $""
     then ["010"%char] ++ $"[STDERR]:" ++ ["010"%char] ++ $""
     else [])))).
Proof.
  apply (shell_success_is_repaired_from_stdout
           (fun _ => Ok $"The file is there.") $"system"
           (fun _ => tools.Completed $"a.txt
" $"") $"ls" $"a.txt
" $"" [HumanMessage $"list"] $"call_run_shell_command_1"
           $"run_shell_command" $"The file is there.").
  - reflexivity.
  - reflexivity.
  - reflexivity.
  - reflexivity.
  - reflexivity.
  - reflexivity.
  - vm_compute; reflexivity.
Defined.

(** ** The listing loop of [_list_dir_logic] *)

Lemma list_entries_bound (extensions : list str) :
  forall entries directories files,
    List.length directories + List.length files <= tools.MAX_LIST_COUNT ->
    List.length (fst (tools.list_entries extensions entries directories files))
    + List.length (snd (tools.list_entries extensions entries directories
                          files))
    <= S tools.MAX_LIST_COUNT.
Proof.
  induction entries as [|e rest IH]; intros ds fs H; cbn [tools.list_entries].
  - cbn [fst snd]; lia.
  - destruct (tools.MAX_LIST_COUNT <=? List.length ds + List.length fs) eqn:E.
    + destruct (tools.entry_is_dir e); cbn [fst snd];
        rewrite length_app; cbn [List.length]; lia.
    + apply Nat.leb_gt in E.
      destruct (tools.entry_is_dir e);
        [apply IH; rewrite length_app; cbn [List.length]; lia|].
      destruct (tools.entry_is_file e); [|now apply IH].
      destruct extensions as [|x xs];
        [apply IH; rewrite length_app; cbn [List.length]; lia|].
      destruct (existsb _ _); [|now apply IH].
      apply IH; rewrite length_app; cbn [List.length]; lia.
Qed.

Lemma list_entries_untruncated (extensions : list str) :
  forall entries directories files,
    List.length directories + List.length files + List.length entries
    <= tools.MAX_LIST_COUNT ->
    tools.list_entries extensions entries directories files
    = (directories
       ++ map tools.entry_name (filter tools.entry_is_dir entries),
       files
       ++ map tools.entry_name (filter (listed_file extensions) entries)).
Proof.
  induction entries as [|e rest IH]; intros ds fs H;
    cbn [tools.list_entries filter map].
  - now rewrite !app_nil_r.
  - cbn [List.length] in H.
    destruct (tools.MAX_LIST_COUNT <=? List.length ds + List.length fs) eqn:E;
      [apply Nat.leb_le in E; lia|].
    unfold listed_file at 1.
    destruct (tools.entry_is_dir e); cbn [negb andb map].
    + rewrite IH by (rewrite length_app; cbn [List.length]; lia).
      now rewrite <- app_assoc.
    + destruct (tools.entry_is_file e); cbn [andb]; [|apply IH; lia].
      destruct extensions as [|x xs].
      * rewrite IH by (rewrite length_app; cbn [List.length]; lia).
        cbn [map]. now rewrite <- app_assoc.
      * destruct (existsb _ _); cbn [map]; [|apply IH; lia].
        rewrite IH by (rewrite length_app; cbn [List.length]; lia).
        now rewrite <- app_assoc.
Qed.

(** X11: the listing loop of [_list_dir_logic] never returns more than
    [MAX_LIST_COUNT + 1] names (the names listed and one truncation mark).
    On a directory of at most [MAX_LIST_COUNT] entries nothing is truncated:
    the directories listed are all the directory entries, in order, and the
    files listed are the regular files that are not directories and, when
    extensions are given, end in one of them. *)
Theorem list_entries_is_bounded_and_filters :
  forall (extensions : list str) (entries : list tools.DirEntry),
    List.length (fst (tools.list_entries extensions entries [] []))
    + List.length (snd (tools.list_entries extensions entries [] []))
    <= 101
    /\ (List.length entries <= 100 ->
        tools.list_entries extensions entries [] []
        = (map tools.entry_name (filter tools.entry_is_dir entries),
           map tools.entry_name (filter (listed_file extensions) entries))).
Proof.
  intros extensions entries; split.
  - apply list_entries_bound. cbn; unfold tools.MAX_LIST_COUNT; lia.
  - intros H. apply (list_entries_untruncated extensions entries [] []).
    cbn [List.length]. unfold tools.MAX_LIST_COUNT. lia.
Qed.

Lemma list_entries_witness :
  tools.list_entries [$".py"]
    [tools.mkEntry $"src" true false; tools.mkEntry $"a.py" false true;
     tools.mkEntry $"b.txt" false true] [] []
  = (map tools.entry_name
       (filter tools.entry_is_dir
          [tools.mkEntry $"src" true false; tools.mkEntry $"a.py" false true;
           tools.mkEntry $"b.txt" false true]),
     map tools.entry_name
       (filter (listed_file [$".py"])
          [tools.mkEntry $"src" true false; tools.mkEntry $"a.py" false true;
           tools.mkEntry $"b.txt" false true])).
Proof.
  apply (proj2 (list_entries_is_bounded_and_filters [$".py"]
                  [tools.mkEntry $"src" true false;
                   tools.mkEntry $"a.py" false true;
                   tools.mkEntry $"b.txt" false true])).
  cbn; lia.
Defined.

(** ** [invoke] and [clear] of [react_agent.py] *)




Section ForLoopState.
Context {St : Type}.
Variable body : Z -> St -> list Event * Flow St.
Variable ctx : St -> list BaseMessage.
Variable exhausted : Event.
Variable P : St -> Prop.
Hypothesis body_keeps :
  forall i st evs fl,
    body i st = (evs, fl) -> P st ->
    match fl with Next st' | Done st' => P st' end.

(** What every pass through the body keeps holds of the state the loop
    ends in. *)
Lemma for_loop_final_state (n : nat) :
  forall i st, P st -> P (snd (for_loop body ctx exhausted n i st)).
Proof.
  induction n as [|n IH]; intros i st H; cbn [for_loop]; [exact H|].
  destruct (body i st) as [evs [st'|st']] eqn:E;
    pose proof (body_keeps _ _ _ _ E H) as H'.
  - specialize (IH (i + 1)%Z st' H').
    now destruct (for_loop body ctx exhausted n (i + 1) st').
  - exact H'.
Qed.
End ForLoopState.

Lemma react_body_appends llm tools finish_input loads_raises
    (init : list BaseMessage) i messages evs fl :
  react_agent.body llm tools finish_input loads_raises i messages
  = (evs, fl) ->
  (exists ext, messages = init ++ ext) ->
  match fl with
  | Next messages' | Done messages' => exists ext, messages' = init ++ ext
  end.
Proof.
  intros H [ext ->]. unfold react_agent.body in H.
  destruct (react_agent._stream_thought_action llm (init ++ ext))
    as [evs0 [[[ft n] inp]|e]].
  - destruct (str_eqb _ _).
    + inversion H; subst. rewrite <- !app_assoc. eauto.
    + destruct (tools_get tools n) as [tool|].
      * destruct (loads_raises inp);
          [|destruct (tool_func tool inp)]; inversion H; subst;
          rewrite <- !app_assoc; eauto.
      * inversion H; subst. rewrite <- !app_assoc. eauto.
  - inversion H; subst. eauto.
Qed.

(** X13: [stream] of [react_agent.py] only ever appends to the messages of
    the agent: what a call leaves is what it found, then the new query, then
    the turns of the call.  So the system prompt stays first, [clear] after
    any call brings the agent back to its initial state, and a query put
    after [clear] runs exactly as on a new agent. *)
Theorem react_stream_appends_and_clear_resets :
  forall llm tools max_iterations finish_input loads_raises system_prompt
         messages first_query second_query,
    (exists turns,
        snd (react_agent.stream llm tools max_iterations finish_input
               loads_raises messages first_query)
        = messages ++ HumanMessage first_query :: turns)
    /\ react_agent.clear
         (snd (react_agent.stream llm tools max_iterations finish_input
                 loads_raises (react_agent.init system_prompt) first_query))
       = react_agent.init system_prompt
    /\ react_agent.stream llm tools max_iterations finish_input loads_raises
         (react_agent.clear
            (snd (react_agent.stream llm tools max_iterations finish_input
                    loads_raises (react_agent.init system_prompt)
                    first_query)))
         second_query
       = react_agent.stream llm tools max_iterations finish_input
           loads_raises (react_agent.init system_prompt) second_query.
Proof.
  intros llm tools N fin loads sys msgs q1 q2.
  assert (Happ : forall m,
             exists turns,
               snd (react_agent.stream llm tools N fin loads m q1)
               = m ++ HumanMessage q1 :: turns).
  { intros m. unfold react_agent.stream.
    destruct (for_loop_final_state
                (react_agent.body llm tools fin loads) (fun x => x)
                react_agent.max_iterations_error
                (fun x => exists ext, x = (m ++ [HumanMessage q1]) ++ ext)
                (react_body_appends llm tools fin loads
                   (m ++ [HumanMessage q1]))
                (Z.to_nat N) 0%Z (m ++ [HumanMessage q1]))
      as [ext Hext]; [exists []; now rewrite app_nil_r|].
    exists ext. rewrite Hext. now rewrite <- app_assoc. }
  assert (Hclear : react_agent.clear
                     (snd (react_agent.stream llm tools N fin loads
                             (react_agent.init sys) q1))
                   = react_agent.init sys).
  { destruct (Happ (react_agent.init sys)) as [turns ->]. reflexivity. }
  split; [apply Happ|]. split; [exact Hclear|now rewrite Hclear].
Qed.

(** ** The action pattern of [react_agent.py] *)

Lemma is_digit_not_space (c : ascii) : is_digit c = true -> is_space c = false.
Proof. destruct c as [[] [] [] [] [] [] [] []]; vm_compute; congruence. Qed.

Lemma is_name_char_not_space (c : ascii) :
  is_name_char c = true -> is_space c = false.
Proof. destruct c as [[] [] [] [] [] [] [] []]; vm_compute; congruence. Qed.

Lemma is_space_not_name_char (c : ascii) :
  is_space c = true -> is_name_char c = false.
Proof. destruct c as [[] [] [] [] [] [] [] []]; vm_compute; congruence. Qed.

(** The head of [l ++ c :: r] is outside the class [p] when [c] is and the
    characters of [l] are in a class disjoint from [p]. *)
Lemma head_outside (p q : ascii -> bool) (l : str) (c : ascii) (r : str) :
  (forall x, q x = true -> p x = false) ->
  forallb q l = true -> p c = false ->
  match l ++ c :: r with [] => true | x :: _ => negb (p x) end = true.
Proof.
  intros Hpq Hl Hc. destruct l as [|x l]; cbn [app]; [now rewrite Hc|].
  cbn [forallb] in Hl; apply andb_true_iff in Hl; destruct Hl as [Hx _].
  now rewrite (Hpq x Hx).
Qed.

Lemma action_regex_numbered (ws1 digits ws2 name ws3 arg : str) :
  forallb is_space ws1 = true -> forallb is_digit digits = true ->
  forallb is_space ws2 = true ->
  name <> [] -> forallb is_name_char name = true ->
  forallb is_space ws3 = true -> no_bracket arg = true ->
  react_agent.action_regex
    ($"Action" ++ ws1 ++ digits ++ $":" ++ ws2 ++ name ++ ws3 ++ $"["
     ++ arg ++ $"]")
  = Some ([Some name; Some arg], []).
Proof.
  intros H1 Hd H2 Hne Hn H3 Hb. unfold react_agent.action_regex.
  unfold lit at 1.
  cbn [S_ list_ascii_of_string app drop_prefix Ascii.eqb Bool.eqb].
  apply greedy_intro; [exact H1| |].
  { apply (head_outside is_space is_digit digits ":"%char);
      [exact is_digit_not_space|exact Hd|reflexivity]. }
  cbn [app]. apply greedy_intro; [exact Hd|reflexivity|].
  cbn [app]. unfold lit at 1. cbn [drop_prefix Ascii.eqb Bool.eqb].
  apply greedy_intro; [exact H2| |].
  { destruct name as [|c name]; [congruence|]. cbn [app].
    cbn [forallb] in Hn; apply andb_true_iff in Hn; destruct Hn as [Hc _].
    now rewrite (is_name_char_not_space c Hc). }
  cbn [app]. apply greedy1_intro; [exact Hne|exact Hn| |].
  { apply (head_outside is_name_char is_space ws3 "["%char);
      [exact is_space_not_name_char|exact H3|reflexivity]. }
  apply greedy_intro; [exact H3|reflexivity|].
  cbn [app]. unfold lit at 1. cbn [drop_prefix Ascii.eqb Bool.eqb].
  apply lazy_any_intro.
  - intros p1 p2 -> Hp2. destruct p2 as [|c p2]; [congruence|].
    unfold no_bracket in Hb. rewrite forallb_app in Hb.
    apply andb_true_iff in Hb; destruct Hb as [_ Hb].
    cbn [forallb] in Hb; apply andb_true_iff in Hb; destruct Hb as [Hc _].
    apply negb_true_iff in Hc.
    unfold lit. cbn [app S_ list_ascii_of_string drop_prefix].
    rewrite Ascii.eqb_sym, Hc. reflexivity.
  - reflexivity.
Qed.

Lemma findall_action_regex_done :
  forall t : str, findall_from react_agent.action_regex (List.length t) t = [].
Proof. induction t as [|c t IH]; [reflexivity|exact IH]. Qed.

(** X14: [_stream_thought_action] of [react_agent.py] accepts the action
    format its system prompt asks for, numbered or not.  On a reply that is
    one action line, the word [Action], an optional number, a colon, a tool
    name made of letters, digits, underscores and hyphens, and a bracketed
    argument of ASCII text without a closing bracket inside, with any ASCII
    blanks between these parts, it yields the reply as one thought event and
    leaves the reply, the name and the argument stripped as the last
    action. *)
Theorem react_parses_numbered_action :
  forall llm messages (ws1 digits ws2 name ws3 arg : str),
    forallb is_space ws1 = true -> forallb is_digit digits = true ->
    forallb is_space ws2 = true ->
    name <> [] -> forallb is_name_char name = true ->
    forallb is_space ws3 = true -> no_bracket arg = true ->
    ascii_text arg = true ->
    let text := $"Action" ++ ws1 ++ digits ++ $":" ++ ws2 ++ name ++ ws3
                ++ $"[" ++ arg ++ $"]" in
    llm messages = react_agent.mkReply [text] None ->
    react_agent._stream_thought_action llm messages
    = ([mkEvent Thought text], Ok (text, name, strip arg)).
Proof.
  intros llm messages ws1 digits ws2 name ws3 arg H1 Hd H2 Hne Hn H3 Hb _
         text Hl.
  pose proof (action_regex_numbered ws1 digits ws2 name ws3 arg
                H1 Hd H2 Hne Hn H3 Hb) as Hre.
  fold text in Hre.
  unfold react_agent._stream_thought_action. rewrite Hl.
  cbn [react_agent.chunks react_agent.failure List.concat map].
  rewrite app_nil_r.
  assert (Hf : findall react_agent.action_regex text
               = [[Some name; Some arg]]).
  { unfold findall. clearbody text. destruct text as [|c t];
      [vm_compute in Hre; discriminate|].
    cbn [findall_from]. rewrite Hre.
    cbn [List.length]. rewrite Nat.sub_0_r.
    replace (S (List.length t) - 1) with (List.length t) by lia.
    now rewrite findall_action_regex_done. }
  rewrite Hf. cbn [last_opt rev app group_text].
  rewrite (strip_id name); [reflexivity|].
  intros c Hc. apply is_name_char_not_space.
  rewrite forallb_forall in Hn; auto.
Qed.

Lemma react_parses_numbered_action_witness :
  react_agent._stream_thought_action
    (fun _ => react_agent.mkReply
                [$"Action" ++ $" " ++ $"2" ++ $":" ++ $" " ++ $"finish"
                 ++ [] ++ $"[" ++ $" 16 " ++ $"]"] None)
    [HumanMessage $"What is 7 + 9?"]
  = ([mkEvent Thought
        ($"Action" ++ $" " ++ $"2" ++ $":" ++ $" " ++ $"finish" ++ []
         ++ $"[" ++ $" 16 " ++ $"]")],
     Ok ($"Action" ++ $" " ++ $"2" ++ $":" ++ $" " ++ $"finish" ++ []
         ++ $"[" ++ $" 16 " ++ $"]", $"finish", strip $" 16 ")).
Proof.
  apply (react_parses_numbered_action
           (fun _ => react_agent.mkReply
                       [$"Action" ++ $" " ++ $"2" ++ $":" ++ $" "
                        ++ $"finish" ++ [] ++ $"[" ++ $" 16 " ++ $"]"] None)
           [HumanMessage $"What is 7 + 9?"]
           $" " $"2" $" " $"finish" [] $" 16 ");
    try reflexivity.
  discriminate.
Defined.

(** ** The contexts the custom and the streaming agent send *)

Section ForLoopContexts.
Context {St : Type}.
Variable body : Z -> St -> list Event * Flow St.
Variable ctx : St -> list BaseMessage.
Variable exhausted : Event.
Variable P : St -> Prop.
Hypothesis body_keeps_next :
  forall i st evs st', body i st = (evs, Next st') -> P st -> P st'.

(** Every call of the model is made on a state that has what every
    continuing iteration keeps. *)
Lemma for_loop_calls_Forall (n : nat) :
  forall i st,
    P st ->
    Forall (fun c => exists st', P st' /\ c = ctx st')
           (llm_calls (fst (for_loop body ctx exhausted n i st))).
Proof.
  induction n as [|n IH]; intros i st H; cbn [for_loop]; [constructor|].
  destruct (body i st) as [evs [st'|st']] eqn:E.
  - specialize (IH (i + 1)%Z st' (body_keeps_next _ _ _ _ E H)).
    destruct (for_loop body ctx exhausted n (i + 1) st') as [r st''].
    cbn [fst llm_calls] in *. constructor; eauto.
  - cbn [fst llm_calls]. repeat constructor. eauto.
Qed.
End ForLoopContexts.

Lemma custom_body_keeps_query llm tools W sys (q : str) i self evs self' :
  custom_react_agent.body llm tools W sys i self = (evs, Next self') ->
  (exists turns, custom_react_agent.messages self = HumanMessage q :: turns) ->
  exists turns, custom_react_agent.messages self' = HumanMessage q :: turns.
Proof.
  intros H [turns Hm]. unfold custom_react_agent.body in H.
  destruct (custom_react_agent._stream_thought_action llm sys
              (custom_react_agent.messages self))
    as [evs0 [[[[ft n] inp]|]|e]]; try discriminate.
  destruct (custom_react_agent.loop_guard W _ n inp) as [[|] h'];
    [discriminate|].
  destruct (str_eqb _ _); [discriminate|].
  inversion H; subst. cbn [custom_react_agent.messages]. rewrite Hm.
  cbn [app]. eauto.
Qed.

(** X15: the custom agent and the streaming agent never call the model more
    often than [max_iterations] allows.  Every context the custom agent
    sends starts with the system prompt followed by the query of this call;
    every context the streaming agent sends starts with the messages the
    agent held before the call followed by the query. *)
Theorem custom_and_react_contexts :
  forall (max_iterations : Z) (query : str),
    (forall llm tools history_length system_prompt self,
        let run := fst (custom_react_agent.stream llm tools max_iterations
                          history_length system_prompt self query) in
        List.length (llm_calls run) <= Z.to_nat max_iterations
        /\ Forall (fun c => exists turns,
                       c = SystemMessage system_prompt
                           :: HumanMessage query :: turns)
                  (llm_calls run))
    /\ (forall llm tools finish_input loads_raises messages,
        let run := fst (react_agent.stream llm tools max_iterations
                          finish_input loads_raises messages query) in
        List.length (llm_calls run) <= Z.to_nat max_iterations
        /\ Forall (fun c => exists turns,
                       c = messages ++ HumanMessage query :: turns)
                  (llm_calls run)).
Proof.
  intros N q; split.
  - intros llm tools W sys self run. subst run.
    unfold custom_react_agent.stream. split; [apply for_loop_calls_le|].
    eapply Forall_impl;
      [|apply (for_loop_calls_Forall
                 (custom_react_agent.body llm tools W sys)
                 (fun self => custom_react_agent.prompt_messages sys
                                (custom_react_agent.messages self))
                 (custom_react_agent.max_steps_error N)
                 (fun self => exists turns,
                      custom_react_agent.messages self
                      = HumanMessage q :: turns)
                 (custom_body_keeps_query llm tools W sys q))].
    + intros c (st & [turns Hm] & ->).
      unfold custom_react_agent.prompt_messages. rewrite Hm. cbn [app]. eauto.
    + exists []. reflexivity.
  - intros llm tools fin loads msgs run. subst run.
    unfold react_agent.stream.
    split; [apply for_loop_calls_le|].
    eapply Forall_impl;
      [|apply (for_loop_calls_Forall
                 (react_agent.body llm tools fin loads) (fun m => m)
                 react_agent.max_iterations_error
                 (fun m => exists ext, m = (msgs ++ [HumanMessage q]) ++ ext))].
    + intros c (st & [ext Hm] & ->). rewrite Hm, <- app_assoc. cbn [app]. eauto.
    + intros i st evs st' H Hp.
      exact (react_body_appends llm tools fin loads
               (msgs ++ [HumanMessage q]) i st evs (Next st') H Hp).
    + exists []. now rewrite app_nil_r.
Qed.

(** ** A repeated action in the custom agent *)

(** X16: when the model proposes the same action, other than [finish], in
    the first two iterations of a custom agent with a positive window and a
    budget of at least two, the tool runs once only: the stream is the first
    thought/action, its observation, the second thought/action and the
    loop-detected error naming iteration 2 and the action; the model was
    called twice. *)
Theorem custom_repeated_action_is_stopped :
  forall llm tools max_iterations history_length system_prompt self query
         full_text1 full_text2 name input,
    (2 <= max_iterations)%Z ->
    1 <= history_length ->
    lower name <> $"finish" ->
    custom_react_agent._stream_thought_action llm system_prompt
      [HumanMessage query]
    = ([mkEvent ThoughtAction full_text1], Ok (Some (full_text1, name, input))) ->
    custom_react_agent._stream_thought_action llm system_prompt
      [HumanMessage query; AIMessage full_text1;
       ToolMessage (custom_react_agent._execute_tool tools name input)
         ($"call_" ++ name ++ $"_" ++ str_of_Z 1) name]
    = ([mkEvent ThoughtAction full_text2], Ok (Some (full_text2, name, input))) ->
    let run := fst (custom_react_agent.stream llm tools max_iterations
                      history_length system_prompt self query) in
    events run
    = [mkEvent ThoughtAction full_text1;
       mkEvent Observation (custom_react_agent._execute_tool tools name input);
       mkEvent ThoughtAction full_text2;
       custom_react_agent.loop_detected_error 2 name input]
    /\ List.length (llm_calls run) = 2.
Proof.
  intros llm tools N W sys self q ft1 ft2 name input HN HW Hn H1 H2 run.
  subst run. unfold custom_react_agent.stream.
  destruct (Z.to_nat N) as [|[|n]] eqn:En; [lia|lia|].
  set (second :=
         custom_react_agent.mkAgent
           [HumanMessage q; AIMessage ft1;
            ToolMessage (custom_react_agent._execute_tool tools name input)
              ($"call_" ++ name ++ $"_" ++ str_of_Z 1) name]
           [(lower name, input)]).
  assert (B1 : custom_react_agent.body llm tools W sys 1
                 (custom_react_agent.reset self q)
               = ([mkEvent ThoughtAction ft1]
                  ++ [mkEvent Observation
                        (custom_react_agent._execute_tool tools name input)],
                  Next second)).
  { unfold custom_react_agent.body.
    cbn [custom_react_agent.reset custom_react_agent.messages app
         custom_react_agent.action_history].
    now rewrite H1, (loop_guard_first W name input HW),
      (str_eqb_neq _ _ Hn). }
  assert (B2 : custom_react_agent.body llm tools W sys 2 second
               = ([mkEvent ThoughtAction ft2]
                  ++ [custom_react_agent.loop_detected_error 2 name input],
                  Done second)).
  { unfold custom_react_agent.body.
    cbn [second custom_react_agent.messages
         custom_react_agent.action_history].
    now rewrite H2, (loop_guard_repeat W name input Hn). }
  cbn [for_loop]. rewrite B1. change (1 + 1)%Z with 2%Z. rewrite B2.
  split; reflexivity.
Qed.

Lemma custom_repeated_action_witness :
  events
    (fst (custom_react_agent.stream
            (fun _ => Ok $"Thought: look it up
Action: search[foo]") [mkTool $"search" $"Searches." (fun _ => Ok $"nothing")]
            5 3 $"system" (custom_react_agent.mkAgent [] []) $"query"))
  = [mkEvent ThoughtAction $"Thought: look it up
Action: search[foo]";
     mkEvent Observation
       (custom_react_agent._execute_tool
          [mkTool $"search" $"Searches." (fun _ => Ok $"nothing")]
          $"search" $"foo");
     mkEvent ThoughtAction $"Thought: look it up
Action: search[foo]";
     custom_react_agent.loop_detected_error 2 $"search" $"foo"]
  /\ List.length
       (llm_calls
          (fst (custom_react_agent.stream
                  (fun _ => Ok $"Thought: look it up
Action: search[foo]")
                  [mkTool $"search" $"Searches." (fun _ => Ok $"nothing")]
                  5 3 $"system" (custom_react_agent.mkAgent [] []) $"query")))
     = 2.
Proof.
  apply (custom_repeated_action_is_stopped
           (fun _ => Ok $"Thought: look it up
Action: search[foo]") [mkTool $"search" $"Searches." (fun _ => Ok $"nothing")]
           5 3 $"system" (custom_react_agent.mkAgent [] []) $"query"
           $"Thought: look it up
Action: search[foo]" $"Thought: look it up
Action: search[foo]" $"search" $"foo").
  - lia.
  - lia.
  - vm_compute; discriminate.
  - vm_compute; reflexivity.
  - vm_compute; reflexivity.
Defined.
